(** * nikovoice: utterance segmentation, barge-in, standby and rate limiting

    A shallow embedding of the voice-capture core of [src/src/index.js]
    (the second, live revision of the bot: [startRecording], [computeRms],
    [endAndFinalize], [refreshStandby], [isRateLimited], ...).

    - Buffers are byte lists ([list Z], each byte in 0..255); [chunk.length]
      is [length].
    - Timestamps ([Date.now()]) and byte counts are [Z].
    - JavaScript numbers in the energy classifier are real numbers extended
      with NaN and the two infinities ([jsnum]); the IEEE rounding of the
      doubles is not modelled there (on the frames used below the doubles
      are exact).  The two roundings to whole numbers, [bytesToMs] and the
      pre-roll budget, are computed in IEEE binary64 ([SpecFloat]), where
      the rounding of the intermediate doubles decides the result.
    - [state.recordings] / [rateLimits] ([Map]s keyed by user id) are stdpp
      [gmap string _]. *)

From Stdlib Require Import ZArith Lia List Bool String.
From Stdlib Require Import Reals Lra.
From Stdlib Require Import SpecFloat.
From stdpp Require Import base gmap strings.

Import ListNotations.
Open Scope Z_scope.

(* ------------------------------------------------------------------ *)
(** ** Configuration (the environment-derived constants) *)

Record config := mkConfig {
  SILENCE_MS : Z;
  MIN_UTTERANCE_MS : Z;
  MAX_UTTERANCE_MS : Z;
  SILENCE_THRESHOLD : R;
  PRE_ROLL_MS : Z;
  BARGE_IN_ENABLED : bool;
  BARGE_IN_THRESHOLD : R;
  RATE_LIMIT_WINDOW_MS : Z;
  RATE_LIMIT_STT_MAX : Z;
  RATE_LIMIT_TTS_MAX : Z
}.

(** The defaults of the live revision of [index.js]. *)
Definition default_config : config := {|
  SILENCE_MS := 800;
  MIN_UTTERANCE_MS := 600;
  MAX_UTTERANCE_MS := 15000;
  SILENCE_THRESHOLD := (1 / 100)%R;
  PRE_ROLL_MS := 300;
  BARGE_IN_ENABLED := true;
  BARGE_IN_THRESHOLD := (2 / 100)%R;
  RATE_LIMIT_WINDOW_MS := 60000;
  RATE_LIMIT_STT_MAX := 10;
  RATE_LIMIT_TTS_MAX := 10
|}.

(* ------------------------------------------------------------------ *)
(** ** JavaScript numbers (just what the classifier needs) *)

Inductive jsnum :=
| JNum (r : R)
| JNaN
| JInf (negative : bool).

(** [a / b] on doubles: division by zero gives NaN for [0/0] and a signed
    infinity otherwise. *)
Definition js_div (a b : R) : jsnum :=
  if Req_EM_T b 0 then
    (if Req_EM_T a 0 then JNaN
     else JInf (if Rlt_dec a 0 then true else false))
  else JNum (a / b).

(** [Math.sqrt]. *)
Definition js_sqrt (x : jsnum) : jsnum :=
  match x with
  | JNum r => if Rlt_dec r 0 then JNaN else JNum (sqrt r)
  | JNaN => JNaN
  | JInf false => JInf false
  | JInf true => JNaN
  end.

(** [x >= t] against a finite threshold; every comparison with NaN is
    false. *)
Definition js_ge (x : jsnum) (t : R) : bool :=
  match x with
  | JNum r => if Rle_dec t r then true else false
  | JNaN => false
  | JInf negative => negb negative
  end.

(* ------------------------------------------------------------------ *)
(** ** Energy classifier: [computeRms], [hasVoiceEnergy] *)

Definition chunk := list Z.

Definition clen (c : chunk) : Z := Z.of_nat (length c).

(** [Buffer.readInt16LE(i)] from the two bytes at [i] and [i+1]. *)
Definition readInt16LE (b0 b1 : Z) : Z :=
  let v := Z.lor b0 (Z.shiftl b1 8) in
  if v >=? 32768 then v - 65536 else v.

(** The loop [for (i = 0; i < chunk.length; i += 2)]; on an odd-length
    buffer the last [readInt16LE(i)] raises a RangeError ([None]). *)
Fixpoint rms_sum (bs : chunk) (sum : R) : option R :=
  match bs with
  | [] => Some sum
  | [_] => None
  | b0 :: b1 :: rest =>
      let sample := (IZR (readInt16LE b0 b1) / 32768)%R in
      rms_sum rest (sum + sample * sample)%R
  end.

(** [computeRms(chunk)]: [None] when it raises. *)
Definition computeRms (c : chunk) : option jsnum :=
  let samples := (INR (length c) / 2)%R in
  match rms_sum c 0%R with
  | None => None
  | Some sum => Some (js_sqrt (js_div sum samples))
  end.

(** [hasVoiceEnergy(chunk, threshold)]. *)
Definition hasVoiceEnergy (c : chunk) (threshold : R) : option bool :=
  match computeRms c with
  | None => None
  | Some rms => Some (js_ge rms threshold)
  end.

(** Little-endian 16-bit encoding of a sample, as a frame stores it. *)
Definition encodeInt16LE (s : Z) : list Z :=
  [Z.land s 255; Z.land (Z.shiftr s 8) 255].

Definition frame_of_samples (ss : list Z) : chunk :=
  flat_map encodeInt16LE ss.

(* ------------------------------------------------------------------ *)
(** ** The per-user recording object *)

Record recording := mkRecording {
  userId : string;
  startedAt : option Z;
  lastAudioAt : Z;
  active : bool;
  chunks : list chunk;
  bytes : Z;
  preRoll : list chunk;
  preRollBytes : Z;
  bargeHits : Z;
  bargeLastAt : Z
}.

(** The object literal of [startRecording]. *)
Definition fresh_recording (u : string) : recording := {|
  userId := u; startedAt := None; lastAudioAt := 0; active := false;
  chunks := []; bytes := 0; preRoll := []; preRollBytes := 0;
  bargeHits := 0; bargeLastAt := 0
|}.

Definition bytesPerSecond : Z := 48000 * 2 * 2.

(** JavaScript numbers of the duration arithmetic: IEEE binary64
    (53-bit significand, [emax = 1024]), rounding to nearest even. *)
Definition dbl_of_Z (z : Z) : spec_float := binary_normalize 53 1024 z 0 false.
Definition dbl_div (x y : spec_float) : spec_float := SFdiv 53 1024 x y.
Definition dbl_mul (x y : spec_float) : spec_float := SFmul 53 1024 x y.

(** [Math.round] of a finite double [(-1)^s * m * 2^e]: the nearest
    integer, halves towards +oo, i.e. [floor (x + 1/2)] on the exact value.
    The non-finite results only arise from byte counts above [2^1000],
    beyond any buffer; they are sent to 0. *)
Definition js_round (x : spec_float) : Z :=
  match x with
  | S754_finite s m e =>
      if 0 <=? e then cond_Zopp s (Zpos m * 2 ^ e)
      else (2 * cond_Zopp s (Zpos m) + 2 ^ (- e)) / 2 ^ (1 - e)
  | _ => 0
  end.

(** [Math.floor] of a finite double. *)
Definition js_floor (x : spec_float) : Z :=
  match x with
  | S754_finite s m e =>
      if 0 <=? e then cond_Zopp s (Zpos m * 2 ^ e)
      else cond_Zopp s (Zpos m) / 2 ^ (- e)
  | _ => 0
  end.

(** [bytesToMs]: [Math.round((bytes / bytesPerSecond) * 1000)], the
    division and the product each rounded to a double. *)
Definition bytesToMs (b : Z) : Z :=
  js_round (dbl_mul (dbl_div (dbl_of_Z b) (dbl_of_Z bytesPerSecond)) (dbl_of_Z 1000)).

(* ------------------------------------------------------------------ *)
(** ** The silence detector ([setInterval] callback, every 200 ms) *)

(** The [reason] logged with [recording_end]. *)
Inductive end_reason := max_utterance | silence_timer.

(** The five assignments that follow each finalize (and the stuck reset). *)
Definition reset_utterance (r : recording) : recording := {|
  userId := userId r; startedAt := None; lastAudioAt := 0; active := false;
  chunks := []; bytes := 0; preRoll := preRoll r;
  preRollBytes := preRollBytes r; bargeHits := bargeHits r;
  bargeLastAt := bargeLastAt r
|}.

(** One tick.  The first component is the [finalizeRecording(state,
    recording)] call, if any, with the reason it is logged with and the
    [recording.chunks] it concatenates ([finalizeRecording] reads them
    synchronously, before its first [await], hence before the reset). *)
Definition silenceTick (cfg : config) (now : Z) (r : recording)
    : option (end_reason * list chunk) * recording :=
  if negb (active r) then (None, r) else
  let silenceFor := now - lastAudioAt r in
  let durationMs := bytesToMs (bytes r) in
  if durationMs >=? MAX_UTTERANCE_MS cfg then
    (Some (max_utterance, chunks r), reset_utterance r)
  else if (silenceFor >=? SILENCE_MS cfg) && (durationMs >=? MIN_UTTERANCE_MS cfg) then
    (Some (silence_timer, chunks r), reset_utterance r)
  else if silenceFor >=? SILENCE_MS cfg * 10 then
    (None, reset_utterance r)
  else (None, r).

(** A run of ticks with no frame in between; the finalize calls made. *)
Fixpoint silenceTicks (cfg : config) (ts : list Z) (r : recording)
    : list (end_reason * list chunk) * recording :=
  match ts with
  | [] => ([], r)
  | t :: ts' =>
      let '(ev, r1) := silenceTick cfg t r in
      let '(evs, r2) := silenceTicks cfg ts' r1 in
      (match ev with Some e => e :: evs | None => evs end, r2)
  end.

(* ------------------------------------------------------------------ *)
(** ** The audio player and the in-flight transcoder *)

Inductive player_status := PIdle | PBuffering | PPlaying | PAutoPaused | PPaused.

(** [state.player] and [state.currentPlayback] (the ffmpeg child, by pid);
    [stopCalls] counts [player.stop(true)] calls and [killed] the pids sent
    SIGKILL, newest first. *)
Record playback := mkPlayback {
  status : player_status;
  currentPlayback : option Z;
  stopCalls : nat;
  killed : list Z
}.

Definition is_playing (s : player_status) : bool :=
  match s with PPlaying | PBuffering => true | _ => false end.

(** [player.stop(true)]: a forced stop puts the player in Idle at once. *)
Definition player_stop (pb : playback) : playback := {|
  status := PIdle; currentPlayback := currentPlayback pb;
  stopCalls := S (stopCalls pb); killed := killed pb
|}.

(** [if (state.currentPlayback) { kill('SIGKILL'); currentPlayback = null }] *)
Definition kill_current (pb : playback) : playback :=
  match currentPlayback pb with
  | Some pid => {| status := status pb; currentPlayback := None;
                   stopCalls := stopCalls pb; killed := pid :: killed pb |}
  | None => pb
  end.

(* ------------------------------------------------------------------ *)
(** ** The [pcmStream.on('data')] handler *)

Inductive gate := Drop | Pass.

Definition set_barge (r : recording) (hits last : Z) : recording := {|
  userId := userId r; startedAt := startedAt r; lastAudioAt := lastAudioAt r;
  active := active r; chunks := chunks r; bytes := bytes r;
  preRoll := preRoll r; preRollBytes := preRollBytes r;
  bargeHits := hits; bargeLastAt := last
|}.

Definition clear_preRoll (r : recording) : recording := {|
  userId := userId r; startedAt := startedAt r; lastAudioAt := lastAudioAt r;
  active := active r; chunks := chunks r; bytes := bytes r;
  preRoll := []; preRollBytes := 0;
  bargeHits := bargeHits r; bargeLastAt := bargeLastAt r
|}.

(** The branch taken while the player is Playing or Buffering: [Drop] is
    the [return], [Pass] lets the chunk continue into segmentation.
    [recording.bargeLastAt || 0] is [bargeLastAt] itself on integers. *)
Definition bargeGate (cfg : config) (now : Z) (rms : jsnum)
    (pb : playback) (r : recording) : gate * playback * recording :=
  if is_playing (status pb) then
    if BARGE_IN_ENABLED cfg && js_ge rms (BARGE_IN_THRESHOLD cfg) then
      let hits := if now - bargeLastAt r <? 250 then bargeHits r + 1 else 1 in
      let r1 := set_barge r hits now in
      if hits >=? 2 then
        (Pass, kill_current (player_stop pb), set_barge r1 0 now)
      else (Drop, pb, r1)
    else (Drop, pb, clear_preRoll r)
  else (Pass, pb, r).

(** [Math.floor((PRE_ROLL_MS / 1000) * 48000 * 2 * 2)], each operation
    rounded to a double. *)
Definition maxPreRollBytes (cfg : config) : Z :=
  js_floor (dbl_mul (dbl_mul (dbl_mul (dbl_div (dbl_of_Z (PRE_ROLL_MS cfg)) (dbl_of_Z 1000))
                                      (dbl_of_Z 48000)) (dbl_of_Z 2)) (dbl_of_Z 2)).

Fixpoint total_bytes (cs : list chunk) : Z :=
  match cs with [] => 0 | c :: cs' => clen c + total_bytes cs' end.

(** [while (preRollBytes > max && preRoll.length > 1) shift()] *)
Fixpoint trimPreRoll (maxB : Z) (pr : list chunk) (b : Z) : list chunk * Z :=
  match pr with
  | c :: ((_ :: _) as rest) =>
      if b >? maxB then trimPreRoll maxB rest (b - clen c) else (pr, b)
  | _ => (pr, b)
  end.

(** "While active, keep buffering" (the [utterance_too_long] log only). *)
Definition appendActive (now : Z) (c : chunk) (energetic : bool)
    (r : recording) : recording := {|
  userId := userId r; startedAt := startedAt r;
  lastAudioAt := if energetic then now else lastAudioAt r;
  active := active r; chunks := chunks r ++ [c]; bytes := bytes r + clen c;
  preRoll := preRoll r; preRollBytes := preRollBytes r;
  bargeHits := bargeHits r; bargeLastAt := bargeLastAt r
|}.

(** The pre-roll ring while Idle, the start of an utterance,
    then the buffering that every chunk reaching this point gets. *)
Definition segmentFrame (cfg : config) (now : Z) (c : chunk)
    (energetic : bool) (r : recording) : recording :=
  if active r then appendActive now c energetic r
  else
    let '(pr, prb) :=
      trimPreRoll (maxPreRollBytes cfg) (preRoll r ++ [c]) (preRollBytes r + clen c) in
    if negb energetic then
      {| userId := userId r; startedAt := startedAt r;
         lastAudioAt := lastAudioAt r; active := false;
         chunks := chunks r; bytes := bytes r;
         preRoll := pr; preRollBytes := prb;
         bargeHits := bargeHits r; bargeLastAt := bargeLastAt r |}
    else
      appendActive now c energetic
        {| userId := userId r; startedAt := Some now; lastAudioAt := now;
           active := true; chunks := pr; bytes := prb;
           preRoll := []; preRollBytes := 0;
           bargeHits := bargeHits r; bargeLastAt := bargeLastAt r |}.

(** The whole handler; [None] when [computeRms] raises. *)
Definition onData (cfg : config) (now : Z) (c : chunk)
    (pb : playback) (r : recording) : option (playback * recording) :=
  match computeRms c with
  | None => None
  | Some rms =>
      let energetic := js_ge rms (SILENCE_THRESHOLD cfg) in
      match bargeGate cfg now rms pb r with
      | (Drop, pb', r') => Some (pb', r')
      | (Pass, pb', r') => Some (pb', segmentFrame cfg now c energetic r')
      end
  end.

(* ------------------------------------------------------------------ *)
(** ** The voice session: recordings, standby, re-arm *)

Definition ALLOWLIST : list string :=
  ["323379312608673803"; "381895367861600258"].

Definition allowlisted (u : string) : bool :=
  existsb (String.eqb u) ALLOWLIST.

(** The fields of the per-guild [state] object the claims read. *)
Record session := mkSession {
  channelId : string;
  standby : bool;
  manualLeave : bool;
  recordings : gmap string recording
}.

Definition set_recordings (st : session) (m : gmap string recording) : session := {|
  channelId := channelId st; standby := standby st;
  manualLeave := manualLeave st; recordings := m
|}.

Definition set_standby (st : session) (b : bool) : session := {|
  channelId := channelId st; standby := b;
  manualLeave := manualLeave st; recordings := recordings st
|}.

(** A voice-channel member as [refreshStandby] sees it. *)
Record member := mkMember { memberId : string; isBot : bool }.

(** [client.channels.cache.get(state.channelId)] when it is a voice
    channel: its members; [None] when missing or not voice-based. *)
Definition channel_view := option (list member).

(** [startRecording(state, userId)]: the three guards, then
    [state.recordings.set(userId, recording)] (subscriptions, decoder and
    handlers are not modelled). *)
Definition startRecording (st : session) (u : string) : session :=
  if negb (allowlisted u) then st else
  if standby st then st else
  match recordings st !! u with
  | Some _ => st
  | None => set_recordings st (<[u := fresh_recording u]> (recordings st))
  end.

(** [cleanupRecording(state, userId)]: timers and streams are torn down and
    the entry is deleted; nothing is finalized. *)
Definition cleanupRecording (st : session) (u : string) : session :=
  set_recordings st (delete u (recordings st)).

(** [refreshStandby(state)]. *)
Definition refreshStandby (st : session) (ch : channel_view) : session :=
  let allowCount :=
    match ch with
    | Some ms => length (filter (fun m => negb (isBot m) && allowlisted (memberId m)) ms)
    | None => 0%nat
    end in
  let shouldStandby := Nat.eqb allowCount 0 in
  if Bool.eqb shouldStandby (standby st) then st else
  let st1 := set_standby st shouldStandby in
  if shouldStandby then
    fold_left cleanupRecording (map fst (map_to_list (recordings st1))) st1
  else
    match ch with
    | Some ms =>
        fold_left (fun s m => if allowlisted (memberId m)
                              then startRecording s (memberId m) else s) ms st1
    | None => st1
    end.

(** [primeSubscriptions(state, voiceChannel)]. *)
Definition primeSubscriptions (st : session) (ms : list member) : session :=
  fold_left (fun s m =>
    if negb (allowlisted (memberId m)) then s
    else if standby s then s
    else startRecording s (memberId m)) ms st.

(** [connectToChannel]: a fresh state, [primeSubscriptions], then
    [refreshStandby] (the priming body has no [await], so it runs first). *)
Definition connectToChannel (chId : string) (ms : list member) (ch : channel_view)
    : session :=
  let st0 := {| channelId := chId; standby := false; manualLeave := false;
                recordings := ∅ |} in
  refreshStandby (primeSubscriptions st0 ms) ch.

(** The guild-state part of the [voiceStateUpdate] handler, for an
    update of user [uid] moving from [oldCh] to [newCh]. *)
Definition voiceStateUpdate (st : session) (ch : channel_view) (uid : string)
    (oldCh newCh : option string) : session :=
  if negb (allowlisted uid) then st else
  let st1 := refreshStandby st ch in
  let st2 :=
    if negb (standby st1) && bool_decide (newCh = Some (channelId st1))
    then startRecording st1 uid else st1 in
  if bool_decide (oldCh = Some (channelId st2)) && negb (bool_decide (newCh = Some (channelId st2)))
  then cleanupRecording st2 uid else st2.

(** The re-arm callback that [endAndFinalize] schedules. *)
Definition rearm (u : string) (ch : channel_view) (st : session) : session :=
  let stillHere :=
    match ch with
    | Some ms => existsb (fun m => String.eqb (memberId m) u) ms
    | None => false
    end in
  if negb stillHere then st else
  if manualLeave st then st else
  match recordings st !! u with
  | Some _ => st
  | None => startRecording st u
  end.

(** A [setTimeout] registration: its delay and its callback, run against
    the channel and session as they are when it fires. *)
Record timer := mkTimer {
  delay : Z;
  callback : channel_view -> session -> session
}.

(** [endAndFinalize(reason)] of [startRecording]: the finalize call (the
    chunks handed to [finalizeRecording]) if long enough, the cleanup and
    the scheduled re-arm. *)
Definition endAndFinalize (cfg : config) (st : session) (r : recording) (u : string)
    : option (list chunk) * session * timer :=
  let durationMs := bytesToMs (bytes r) in
  let fin := if durationMs >=? MIN_UTTERANCE_MS cfg then Some (chunks r) else None in
  (fin, cleanupRecording st u, {| delay := 250; callback := rearm u |}).

(** The handlers [opusStream.on('close')], [opusStream.on('error')] and
    [pcmStream.on('error')]: [cleanupRecording(state, userId)], and no timer. *)
Definition streamEnd (st : session) (u : string) : session * list timer :=
  (cleanupRecording st u, []).

(** The operations that touch [state.standby] or [state.recordings]. *)
Inductive session_step : session -> session -> Prop :=
| step_start st u : session_step st (startRecording st u)
| step_cleanup st u : session_step st (cleanupRecording st u)
| step_refresh st ch : session_step st (refreshStandby st ch)
| step_prime st ms : session_step st (primeSubscriptions st ms)
| step_voice st ch uid oldCh newCh :
    session_step st (voiceStateUpdate st ch uid oldCh newCh)
| step_rearm st u ch : session_step st (rearm u ch st)
| step_end cfg st r u :
    session_step st (snd (fst (endAndFinalize cfg st r u))).

Inductive reachable : session -> Prop :=
| reach_connect chId ms ch : reachable (connectToChannel chId ms ch)
| reach_step st st' : reachable st -> session_step st st' -> reachable st'.

(* ------------------------------------------------------------------ *)
(** ** The rate limiter: [isRateLimited(userId, kind)] *)

Record rl_entry := mkEntry { windowStart : Z; sttCount : Z; ttsCount : Z }.

Inductive kind := stt | tts.

Definition count_of (k : kind) (e : rl_entry) : Z :=
  match k with stt => sttCount e | tts => ttsCount e end.

Definition ceiling (cfg : config) (k : kind) : Z :=
  match k with stt => RATE_LIMIT_STT_MAX cfg | tts => RATE_LIMIT_TTS_MAX cfg end.

(** [true] when the request is refused. *)
Definition isRateLimited (cfg : config) (now : Z) (rl : gmap string rl_entry)
    (u : string) (k : kind) : bool * gmap string rl_entry :=
  let entry := default {| windowStart := now; sttCount := 0; ttsCount := 0 |} (rl !! u) in
  let entry :=
    if now - windowStart entry >=? RATE_LIMIT_WINDOW_MS cfg
    then {| windowStart := now; sttCount := 0; ttsCount := 0 |} else entry in
  match k with
  | stt =>
      if sttCount entry >=? RATE_LIMIT_STT_MAX cfg then (true, <[u := entry]> rl)
      else (false, <[u := {| windowStart := windowStart entry;
                             sttCount := sttCount entry + 1;
                             ttsCount := ttsCount entry |}]> rl)
  | tts =>
      if ttsCount entry >=? RATE_LIMIT_TTS_MAX cfg then (true, <[u := entry]> rl)
      else (false, <[u := {| windowStart := windowStart entry;
                             sttCount := sttCount entry;
                             ttsCount := ttsCount entry + 1 |}]> rl)
  end.

(** Successive requests of one user and kind at the times [ts]. *)
Fixpoint requests (cfg : config) (rl : gmap string rl_entry) (u : string)
    (k : kind) (ts : list Z) : list bool * gmap string rl_entry :=
  match ts with
  | [] => ([], rl)
  | t :: ts' =>
      let '(b, rl1) := isRateLimited cfg t rl u k in
      let '(bs, rl2) := requests cfg rl1 u k ts' in
      (b :: bs, rl2)
  end.

(* ------------------------------------------------------------------ *)
(** ** [pcmToWav]: sample decoding and channel split (the WAV container
    itself is written by the [wav-encoder] library, not modelled) *)

(** The [floatData] loop: [readInt16LE(i)] for every even [i]; [None] when
    the last read raises on an odd-length buffer. *)
Fixpoint pcmSamples (pcm : chunk) : option (list Z) :=
  match pcm with
  | [] => Some []
  | [_] => None
  | b0 :: b1 :: rest =>
      match pcmSamples rest with
      | Some ss => Some (readInt16LE b0 b1 :: ss)
      | None => None
      end
  end.

(** [floatData[i / 2] = int16 / 32768] (exact in a [Float32Array]). *)
Definition floatData (ss : list Z) : list R :=
  map (fun s => (IZR s / 32768)%R) ss.

(** [channelData]: [frames = floatData.length / channels] (a typed array
    truncates a fractional length) and [channel[i] = floatData[i * channels
    + c]], an index always below [floatData.length]. *)
Definition pcmToWav_channelData (pcm : chunk) (channels : nat)
    : option (list (list R)) :=
  match pcmSamples pcm with
  | None => None
  | Some ss =>
      let fd := floatData ss in
      let frames := Nat.div (length fd) channels in
      Some (map (fun c => map (fun i => nth (i * channels + c) fd 0%R) (seq 0 frames))
                (seq 0 channels))
  end.

(** Interleaving channels back into frames, the layout of the decoder's
    PCM; used to state what [pcmToWav] keeps. *)
Definition interleave (cd : list (list R)) (frames : nat) : list R :=
  flat_map (fun i => map (fun chn => nth i chn 0%R) cd) (seq 0 frames).

(* ------------------------------------------------------------------ *)
(** ** [finalizeRecording] and [speak], up to the external services *)

(** What the network and ffmpeg return, as functions of their input:
    [pcmToWavForStt] (ffmpeg resampling), [transcribe] ([''] on an HTTP
    error or an empty transcript) and [askOpenClaw] ([''] on an HTTP error
    or an empty reply). *)
Record services := mkServices {
  toWav : list Z -> list Z;
  transcribe : list Z -> string;
  askOpenClaw : string -> string
}.

(** The outgoing requests: the transcription upload, the agent call, and
    a [speak] call that passed its rate check (with the rate-limit key). *)
Inductive request :=
| stt_request (wav : list Z)
| agent_request (text : string)
| tts_request (key : string) (text : string).

(** [userId || 'unknown'] *)
Definition speakerKey (u : string) : string :=
  if String.eqb u "" then "unknown" else u.

(** [speak(state, text, userId)] up to its rate check; what follows (the
    readiness wait, the TTS fetch and ffmpeg) is the [tts_request]. *)
Definition speak (cfg : config) (now : Z) (rl : gmap string rl_entry)
    (text u : string) : list request * gmap string rl_entry :=
  let key := speakerKey u in
  let '(limited, rl1) := isRateLimited cfg now rl key tts in
  if limited then ([], rl1) else ([tts_request key text], rl1).

(** [finalizeRecording(state, recording)]; [t1] is the time of the call
    (its rate check runs before the first [await]), [t2] that of [speak]. *)
Definition finalizeRecording (cfg : config) (svc : services) (t1 t2 : Z)
    (rl : gmap string rl_entry) (r : recording)
    : list request * gmap string rl_entry :=
  let '(limited, rl1) := isRateLimited cfg t1 rl (userId r) stt in
  if limited then ([], rl1) else
  let wav := toWav svc (concat (chunks r)) in
  let text := transcribe svc wav in
  if String.eqb text "" then ([stt_request wav], rl1) else
  let reply := askOpenClaw svc text in
  if String.eqb reply "" then ([stt_request wav; agent_request text], rl1) else
  let '(rs, rl2) := speak cfg t2 rl1 reply (userId r) in
  (stt_request wav :: agent_request text :: rs, rl2).

(* ------------------------------------------------------------------ *)
(** ** Consistency of a recording's fields *)

(** The relations between the fields of a recording that the data handler
    and the silence detector maintain. *)
Definition recording_wf (r : recording) : Prop :=
  bytes r = total_bytes (chunks r) /\
  preRollBytes r = total_bytes (preRoll r) /\
  (active r = false -> chunks r = [] /\ startedAt r = None) /\
  (active r = true -> preRoll r = [] /\ startedAt r <> None) /\
  0 <= bargeHits r <= 1.

(* ------------------------------------------------------------------ *)
(** ** The [messageCreate] commands and the [Disconnected] handler *)

(** [message.member.voice.channel]: its id, name and members, and the
    channel as [refreshStandby] later reads it from the cache. *)
Record voice_channel := mkVoice {
  vcId : string; vcName : string; vcMembers : list member; vcView : channel_view
}.

(** The fields of a Discord message the handler reads. *)
Record message := mkMessage {
  authorBot : bool; authorId : string; guild : option string;
  content : string; voiceOf : option voice_channel
}.

(** What one message does: the [connections] map by guild id, the session
    object it marked as left (still referenced by its pending timers), the
    replies, the TTS requests and the rate-limit table. *)
Record mc_out := mkOut {
  conns : gmap string session; retired : option session;
  replies : list string; reqs : list request; rl_after : gmap string rl_entry
}.

Definition set_manualLeave (st : session) (b : bool) : session := {|
  channelId := channelId st; standby := standby st;
  manualLeave := b; recordings := recordings st
|}.

(** The text [connectToChannel] speaks on join when asked to. *)
Definition AUTO_SPEAK_TEXT : string :=
  "Audio test. If you can hear this, TTS playback works.".

Section Commands.

(** [String.prototype.trim], left abstract (its whitespace set is Unicode's). *)
Variable js_trim : string -> string.

(** [process.env.AUTO_SPEAK_ON_JOIN === '1'] *)
Variable AUTO_SPEAK_ON_JOIN : bool.

(** The [messageCreate] handler; strings are sequences of code units, and
    [slice(a)] / [slice(0, n)] are [substring].  [!join] runs
    [connectToChannel] ([connectToChannel] below, plus its [speak] call). *)
Definition messageCreate (cfg : config) (now : Z) (rl : gmap string rl_entry)
    (cs : gmap string session) (m : message) : mc_out :=
  let nothing := mkOut cs None [] [] rl in
  if authorBot m then nothing else
  match guild m with
  | None => nothing
  | Some g =>
    if negb (allowlisted (authorId m)) then nothing else
    let c := js_trim (content m) in
    if String.eqb c "!join" then
      match voiceOf m with
      | None => mkOut cs None ["Join a voice channel first."] [] rl
      | Some v =>
          let old := option_map (fun st => set_manualLeave st true) (cs !! g) in
          let cs1 := match cs !! g with Some _ => delete g cs | None => cs end in
          let st := connectToChannel (vcId v) (vcMembers v) (vcView v) in
          (* [connectToChannel]'s test call [speak(state, ..., 'system')], not
             awaited; its rate check runs before [connectToChannel] returns *)
          let '(rs, rl1) :=
            if AUTO_SPEAK_ON_JOIN then speak cfg now rl AUTO_SPEAK_TEXT "system"
            else ([], rl) in
          mkOut (<[g := st]> cs1) old [("Joined " ++ vcName v ++ ".")%string] rs rl1
      end
    else if String.eqb c "!leave" then
      match cs !! g with
      | None => nothing
      | Some st =>
          mkOut (delete g cs) (Some (set_manualLeave st true)) ["Left the channel."] [] rl
      end
    else if String.prefix "!say " c then
      match cs !! g with
      | None => mkOut cs None ["Not in voice."] [] rl
      | Some _ =>
          let text := substring 0 200 (js_trim (substring 5 (String.length c - 5) c)) in
          if String.eqb text "" then nothing else
          let '(rs, rl1) := speak cfg now rl text (authorId m) in
          mkOut cs None ["ok"] rs rl1
      end
    else nothing
  end.

End Commands.

(** The [Disconnected] branch of [attachConnectionHandlers]: whether
    [attemptRejoin] is called. *)
Definition onDisconnected (st : session) : bool := negb (manualLeave st).

(* ------------------------------------------------------------------ *)
(** ** Concrete inputs used by the witnesses and counterexamples *)

Definition sample_recording (act : bool) (b last : Z) : recording := {|
  userId := "323379312608673803"; startedAt := Some 0; lastAudioAt := last;
  active := act; chunks := [[0; 0]]; bytes := b; preRoll := []; preRollBytes := 0;
  bargeHits := 0; bargeLastAt := 0
|}.

(** [PRE_ROLL_MS=10]: a budget of 1920 bytes, half a 20 ms decoder frame. *)
Definition short_preroll_config : config := {|
  SILENCE_MS := 800; MIN_UTTERANCE_MS := 600; MAX_UTTERANCE_MS := 15000;
  SILENCE_THRESHOLD := (1 / 100)%R; PRE_ROLL_MS := 10;
  BARGE_IN_ENABLED := true; BARGE_IN_THRESHOLD := (2 / 100)%R;
  RATE_LIMIT_WINDOW_MS := 60000; RATE_LIMIT_STT_MAX := 10; RATE_LIMIT_TTS_MAX := 10
|}.

(** One decoder frame: 960 stereo samples of 16 bits, 3840 bytes. *)
Definition decoder_frame (s : Z) : chunk := frame_of_samples (repeat s 1920).

Definition sample_session (left sb : bool) : session :=
  {| channelId := "voice"; standby := sb; manualLeave := left; recordings := ∅ |}.

(** An Idle recording whose pre-roll holds 10 ms of silence (1920 bytes,
    the whole [PRE_ROLL_MS=10] budget). *)
Definition idle_with_preroll : recording := {|
  userId := "323379312608673803"; startedAt := None; lastAudioAt := 0;
  active := false; chunks := []; bytes := 0;
  preRoll := [repeat 0 1920]; preRollBytes := 1920;
  bargeHits := 0; bargeLastAt := 0
|}.

Definition idle_playback : playback :=
  {| status := PIdle; currentPlayback := None; stopCalls := 0; killed := [] |}.

Definition playing_playback (pid : Z) : playback :=
  {| status := PPlaying; currentPlayback := Some pid; stopCalls := 0; killed := [] |}.

(* ================================================================== *)
(** * Properties *)

Ltac zcheck := vm_compute; first [reflexivity | discriminate | intro; discriminate].

(* ------------------------------------------------------------------ *)
(** ** Silence detector *)

Lemma silenceTick_idle (cfg : config) (now : Z) (r : recording) :
  active r = false -> silenceTick cfg now r = (None, r).
Proof. intros H. unfold silenceTick. now rewrite H. Qed.

(** C1: on a tick of an Active recording below the maximum duration,
    silent for at least [SILENCE_MS] and at least [MIN_UTTERANCE_MS] long,
    exactly one finalize call is made, with reason [silence_timer] and the
    accumulated chunks, and the recording is back to Idle with an empty
    buffer. *)
Theorem silence_timeout_finalizes (cfg : config) (now : Z) (r : recording) :
  active r = true ->
  bytesToMs (bytes r) < MAX_UTTERANCE_MS cfg ->
  now - lastAudioAt r >= SILENCE_MS cfg ->
  bytesToMs (bytes r) >= MIN_UTTERANCE_MS cfg ->
  let '(ev, r') := silenceTick cfg now r in
  ev = Some (silence_timer, chunks r) /\
  active r' = false /\ chunks r' = [] /\ bytes r' = 0 /\ startedAt r' = None.
Proof.
  intros Ha Hmax Hsil Hmin. unfold silenceTick. rewrite Ha. simpl.
  replace (bytesToMs (bytes r) >=? MAX_UTTERANCE_MS cfg) with false by lia.
  replace (now - lastAudioAt r >=? SILENCE_MS cfg) with true by lia.
  replace (bytesToMs (bytes r) >=? MIN_UTTERANCE_MS cfg) with true by lia.
  simpl. repeat split.
Qed.

Lemma silence_timeout_finalizes_witness :
  let r := sample_recording true 192000 0 in
  active r = true /\
  bytesToMs (bytes r) < MAX_UTTERANCE_MS default_config /\
  1000 - lastAudioAt r >= SILENCE_MS default_config /\
  bytesToMs (bytes r) >= MIN_UTTERANCE_MS default_config /\
  (let '(ev, r') := silenceTick default_config 1000 r in
   ev = Some (silence_timer, chunks r) /\
   active r' = false /\ chunks r' = [] /\ bytes r' = 0 /\ startedAt r' = None).
Proof.
  intros r. split; [reflexivity|]. split; [zcheck|]. split; [zcheck|].
  split; [zcheck|].
  apply (silence_timeout_finalizes default_config 1000 r); [reflexivity|zcheck..].
Defined.

(** C2: on a tick of an Active recording whose buffered duration has
    reached [MAX_UTTERANCE_MS], the finalize call has reason
    [max_utterance] whatever the silence (the maximum is tested first),
    and the recording is back to Idle with an empty buffer. *)
Theorem max_duration_finalizes (cfg : config) (now : Z) (r : recording) :
  active r = true ->
  bytesToMs (bytes r) >= MAX_UTTERANCE_MS cfg ->
  let '(ev, r') := silenceTick cfg now r in
  ev = Some (max_utterance, chunks r) /\
  active r' = false /\ chunks r' = [] /\ bytes r' = 0 /\ startedAt r' = None.
Proof.
  intros Ha Hmax. unfold silenceTick. rewrite Ha. simpl.
  replace (bytesToMs (bytes r) >=? MAX_UTTERANCE_MS cfg) with true by lia.
  repeat split.
Qed.

(** A voiced frame has just arrived: [lastAudioAt = now]. *)
Lemma max_duration_finalizes_witness :
  let r := sample_recording true (192000 * 16) 5000 in
  active r = true /\
  bytesToMs (bytes r) >= MAX_UTTERANCE_MS default_config /\
  (let '(ev, r') := silenceTick default_config 5000 r in
   ev = Some (max_utterance, chunks r) /\
   active r' = false /\ chunks r' = [] /\ bytes r' = 0 /\ startedAt r' = None).
Proof.
  intros r. split; [reflexivity|]. split; [zcheck|].
  apply (max_duration_finalizes default_config 5000 r); [reflexivity|zcheck].
Defined.

(** A finalize of the first tick of a run shows up in the run's list. *)
Lemma silenceTicks_cons (cfg : config) (t : Z) (ts : list Z) (r : recording) :
  fst (silenceTicks cfg (t :: ts) r) =
  match fst (silenceTick cfg t r) with
  | Some e => e :: fst (silenceTicks cfg ts (snd (silenceTick cfg t r)))
  | None => fst (silenceTicks cfg ts (snd (silenceTick cfg t r)))
  end.
Proof.
  cbn [silenceTicks]. destruct (silenceTick cfg t r) as [o r1].
  cbn [fst snd]. destruct (silenceTicks cfg ts r1) as [os r2].
  now destruct o.
Qed.

Lemma silenceTicks_idle (cfg : config) (ts : list Z) (r : recording) :
  active r = false -> fst (silenceTicks cfg ts r) = [].
Proof.
  revert r. induction ts as [|t ts IH]; intros r Ha; [reflexivity|].
  rewrite silenceTicks_cons, (silenceTick_idle cfg t r Ha). simpl. now apply IH.
Qed.

(** C3: an Active recording shorter than [MIN_UTTERANCE_MS] (with the
    minimum not above the maximum) is never finalized by a tick, however
    long the silence: a tick leaves it as it is until the silence reaches
    [10 * SILENCE_MS], and then drops the buffer and returns to Idle
    without a finalize call; a run of ticks makes no finalize call at all. *)
Theorem sub_minimum_discarded (cfg : config) (r : recording) :
  active r = true ->
  bytesToMs (bytes r) < MIN_UTTERANCE_MS cfg ->
  MIN_UTTERANCE_MS cfg <= MAX_UTTERANCE_MS cfg ->
  (forall now : Z,
     silenceTick cfg now r =
     (None, if now - lastAudioAt r >=? SILENCE_MS cfg * 10
            then reset_utterance r else r)) /\
  (forall now : Z, now - lastAudioAt r >= SILENCE_MS cfg * 10 ->
     active (snd (silenceTick cfg now r)) = false /\
     chunks (snd (silenceTick cfg now r)) = [] /\
     bytes (snd (silenceTick cfg now r)) = 0) /\
  (forall ts : list Z, fst (silenceTicks cfg ts r) = []).
Proof.
  intros Ha Hmin Hle.
  assert (Htick : forall now : Z,
     silenceTick cfg now r =
     (None, if now - lastAudioAt r >=? SILENCE_MS cfg * 10
            then reset_utterance r else r)).
  { intros now. unfold silenceTick. rewrite Ha. simpl.
    replace (bytesToMs (bytes r) >=? MAX_UTTERANCE_MS cfg) with false by lia.
    replace (bytesToMs (bytes r) >=? MIN_UTTERANCE_MS cfg) with false by lia.
    rewrite andb_false_r. now destruct (now - lastAudioAt r >=? SILENCE_MS cfg * 10). }
  split; [exact Htick|]. split.
  - intros now Hs. rewrite Htick. simpl.
    replace (now - lastAudioAt r >=? SILENCE_MS cfg * 10) with true by lia.
    repeat split.
  - intros ts. induction ts as [|t ts IH]; [reflexivity|].
    rewrite silenceTicks_cons, Htick. simpl.
    destruct (t - lastAudioAt r >=? SILENCE_MS cfg * 10); [|exact IH].
    now apply silenceTicks_idle.
Qed.

Lemma sub_minimum_discarded_witness :
  let r := sample_recording true (192000 / 2) 0 in
  active r = true /\
  bytesToMs (bytes r) < MIN_UTTERANCE_MS default_config /\
  MIN_UTTERANCE_MS default_config <= MAX_UTTERANCE_MS default_config /\
  silenceTick default_config 8000 r = (None, reset_utterance r).
Proof.
  intros r. split; [reflexivity|]. split; [zcheck|]. split; [zcheck|].
  destruct (sub_minimum_discarded default_config r) as [H _];
    [reflexivity|zcheck|zcheck|].
  rewrite (H 8000). reflexivity.
Defined.

(* ------------------------------------------------------------------ *)
(** ** Energy classifier *)

Lemma land_shiftl_low (a b : Z) :
  0 <= a < 256 -> Z.land a (Z.shiftl b 8) = 0.
Proof.
  intros Ha. apply Z.bits_inj'. intros n Hn.
  rewrite Z.land_spec, Z.bits_0.
  destruct (Z.lt_ge_cases n 8) as [Hlt|Hge].
  - rewrite Z.shiftl_spec_low by lia. apply andb_false_r.
  - rewrite <- (Z.mod_small a (2 ^ 8)) by (simpl; lia).
    rewrite Z.mod_pow2_bits_high by lia. reflexivity.
Qed.

(** [readInt16LE] reads back a sample written little-endian. *)
Lemma readInt16LE_encode (s : Z) :
  -32768 <= s <= 32767 ->
  readInt16LE (Z.land s 255) (Z.land (Z.shiftr s 8) 255) = s.
Proof.
  intros Hs. unfold readInt16LE.
  change 255 with (Z.ones 8).
  rewrite !Z.land_ones, Z.shiftr_div_pow2 by lia.
  change (2 ^ 8) with 256.
  assert (H0 : 0 <= s mod 256 < 256) by (apply Z.mod_pos_bound; lia).
  rewrite <- Z.lxor_lor, <- Z.add_nocarry_lxor by (apply land_shiftl_low; lia).
  rewrite Z.shiftl_mul_pow2 by lia. change (2 ^ 8) with 256.
  assert (Hm : s mod 256 + (s / 256) mod 256 * 256 = s mod 65536).
  { assert (H1 : 0 <= (s / 256) mod 256 < 256) by (apply Z.mod_pos_bound; lia).
    pose proof (Z.div_mod s 256) as D0. pose proof (Z.div_mod (s / 256) 256) as D1.
    apply (Z.mod_unique s 65536 ((s / 256) / 256)); lia. }
  rewrite Hm.
  destruct (Z.le_gt_cases 0 s) as [Hp|Hn].
  - rewrite Z.mod_small by lia.
    replace (s >=? 32768) with false by lia. reflexivity.
  - rewrite <- (Z.mod_unique s 65536 (-1) (s + 65536)) by lia.
    replace (s + 65536 >=? 32768) with true by lia. lia.
Qed.

Lemma length_frame_of_samples (ss : list Z) :
  length (frame_of_samples ss) = (2 * length ss)%nat.
Proof. induction ss as [|s ss IH]; [reflexivity|]. simpl in *. lia. Qed.

(** The loop over a frame whose samples all have magnitude [m]. *)
Lemma rms_sum_const (ss : list Z) (m : Z) (acc : R) :
  Forall (fun s => Z.abs s = m /\ -32768 <= s <= 32767) ss ->
  rms_sum (frame_of_samples ss) acc =
  Some (acc + INR (length ss) * ((IZR m / 32768) * (IZR m / 32768)))%R.
Proof.
  revert acc. induction ss as [|s ss IH]; intros acc Hall.
  - simpl. f_equal. ring.
  - inversion Hall as [|? ? [Habs Hr] Hrest]; subst.
    simpl frame_of_samples. cbn [rms_sum].
    rewrite readInt16LE_encode by lia.
    rewrite (IH _ Hrest). f_equal.
    assert (Hsq : (IZR s * IZR s = IZR (Z.abs s) * IZR (Z.abs s))%R).
    { rewrite <- !mult_IZR. f_equal. nia. }
    cbn [length]. rewrite S_INR.
    unfold Rdiv. replace (IZR s * / 32768 * (IZR s * / 32768))%R
      with (IZR s * IZR s * / 32768 * / 32768)%R by ring.
    rewrite Hsq. ring.
Qed.

(** The RMS of a nonempty frame whose samples all have magnitude [m] is
    [m / 32768]. *)
Lemma computeRms_const (ss : list Z) (m : Z) :
  ss <> [] -> 0 <= m ->
  Forall (fun s => Z.abs s = m /\ -32768 <= s <= 32767) ss ->
  computeRms (frame_of_samples ss) = Some (JNum (IZR m / 32768)).
Proof.
  intros Hne Hm Hall. unfold computeRms.
  rewrite (rms_sum_const ss m 0 Hall), length_frame_of_samples.
  assert (Hn : (0 < INR (length ss))%R).
  { apply lt_0_INR. destruct ss; [congruence|simpl; lia]. }
  assert (H2 : (INR (2 * length ss) / 2 = INR (length ss))%R).
  { rewrite mult_INR. simpl. field. }
  rewrite H2. set (q := (IZR m / 32768)%R).
  assert (Hq : (0 <= q)%R).
  { unfold q. apply Rmult_le_pos; [apply IZR_le; lia|]. lra. }
  unfold js_div. destruct (Req_EM_T (INR (length ss)) 0) as [E|_]; [lra|].
  replace ((0 + INR (length ss) * (q * q)) / INR (length ss))%R with (q * q)%R
    by (field; lra).
  unfold js_sqrt. destruct (Rlt_dec (q * q) 0) as [Hlt|_].
  - nra.
  - rewrite sqrt_square by exact Hq. reflexivity.
Qed.

(** The empty frame: [0 / 0] is NaN. *)
Lemma computeRms_empty : computeRms [] = Some JNaN.
Proof.
  unfold computeRms. simpl rms_sum. cbv zeta.
  replace (INR (length (@nil Z)) / 2)%R with 0%R by (simpl; field).
  unfold js_div. destruct (Req_EM_T 0 0) as [_|N]; [|congruence].
  reflexivity.
Qed.

Lemma Forall_repeat_Z (P : Z -> Prop) (x : Z) (n : nat) :
  P x -> Forall P (repeat x n).
Proof. intros Hx. induction n; constructor; assumption. Qed.

(** C6 (as amended): an all-zero frame is never voiced above a positive
    threshold (the empty frame included); a nonempty frame of samples
    -32768 has RMS 1 and is voiced for every threshold up to 1; a
    nonempty frame of samples of magnitude 32767 (the positive full scale)
    has RMS 32767/32768 and is voiced exactly for thresholds up to
    32767/32768. *)
Theorem rms_full_scale_and_silence (ss : list Z) (t : R) :
  (Forall (fun s => s = 0) ss -> (0 < t)%R ->
     hasVoiceEnergy (frame_of_samples ss) t = Some false) /\
  (ss <> [] -> Forall (fun s => s = -32768) ss -> (t <= 1)%R ->
     hasVoiceEnergy (frame_of_samples ss) t = Some true) /\
  (ss <> [] -> Forall (fun s => s = 32767 \/ s = -32767) ss ->
     computeRms (frame_of_samples ss) = Some (JNum (32767 / 32768)) /\
     (hasVoiceEnergy (frame_of_samples ss) t = Some true <-> (t <= 32767 / 32768)%R)).
Proof.
  split; [|split].
  - intros Hz Ht. destruct ss as [|s0 ss0].
    + unfold hasVoiceEnergy. simpl frame_of_samples. rewrite computeRms_empty. reflexivity.
    + unfold hasVoiceEnergy.
      rewrite (computeRms_const _ 0) by
        first [discriminate | lia |
               (eapply Forall_impl; [exact Hz|]; intros s ->; simpl; lia)].
      unfold js_ge. destruct (Rle_dec t (IZR 0 / 32768)) as [Hle|]; [|reflexivity].
      exfalso. unfold Rdiv in Hle. rewrite Rmult_0_l in Hle. lra.
  - intros Hne Hf Ht. unfold hasVoiceEnergy.
    rewrite (computeRms_const _ 32768) by
      first [assumption | lia |
             (eapply Forall_impl; [exact Hf|]; intros s ->; simpl; lia)].
    unfold js_ge. destruct (Rle_dec t (IZR 32768 / 32768)) as [|N]; [reflexivity|].
    exfalso. apply N. replace (IZR 32768 / 32768)%R with 1%R by field. exact Ht.
  - intros Hne Hf.
    assert (Hc : computeRms (frame_of_samples ss) = Some (JNum (32767 / 32768))).
    { rewrite (computeRms_const _ 32767) by
        first [assumption | lia |
               (eapply Forall_impl; [exact Hf|]; intros s [-> | ->]; simpl; lia)].
      reflexivity. }
    split; [exact Hc|].
    unfold hasVoiceEnergy. rewrite Hc. unfold js_ge.
    destruct (Rle_dec t (32767 / 32768)) as [H|H]; split; intros; try congruence; contradiction.
Qed.

Lemma rms_full_scale_and_silence_witness :
  hasVoiceEnergy (decoder_frame 0) (1 / 100) = Some false /\
  hasVoiceEnergy (decoder_frame (-32768)) 1 = Some true /\
  hasVoiceEnergy (decoder_frame 32767) (1 / 2) = Some true.
Proof.
  split; [|split].
  - apply (proj1 (rms_full_scale_and_silence (repeat 0 1920) (1 / 100)));
      [apply Forall_repeat_Z; reflexivity | lra].
  - apply (proj1 (proj2 (rms_full_scale_and_silence (repeat (-32768) 1920) 1)));
      [discriminate | apply Forall_repeat_Z; reflexivity | lra].
  - apply (proj2 (proj2 (proj2 (rms_full_scale_and_silence (repeat 32767 1920) (1 / 2)))
             ltac:(discriminate) ltac:(apply Forall_repeat_Z; left; reflexivity))).
    lra.
Defined.

(** C6 counterexample: a frame at the positive full scale (+32767) is not
    voiced at threshold 1. *)
Lemma positive_full_scale_not_voiced_at_one :
  hasVoiceEnergy (decoder_frame 32767) 1 = Some false.
Proof.
  unfold hasVoiceEnergy, decoder_frame.
  rewrite (computeRms_const _ 32767)
    by first [discriminate | lia | (apply Forall_repeat_Z; simpl; lia)].
  unfold js_ge. destruct (Rle_dec 1 (IZR 32767 / 32768)) as [H|]; [|reflexivity].
  exfalso. unfold Rdiv in H. lra.
Qed.

(** C7 (as amended): on an empty frame [computeRms] evaluates [0 / 0] to
    NaN without raising; every comparison with NaN is false, so the frame
    is unvoiced at every threshold, and the data handler does not raise. *)
Theorem empty_frame_is_nan_and_unvoiced :
  computeRms [] = Some JNaN /\
  (forall t : R, hasVoiceEnergy [] t = Some false) /\
  (forall (cfg : config) (now : Z) (pb : playback) (r : recording),
     exists res, onData cfg now [] pb r = Some res).
Proof.
  split; [exact computeRms_empty|]. split.
  - intros t. unfold hasVoiceEnergy. now rewrite computeRms_empty.
  - intros cfg now pb r. unfold onData. rewrite computeRms_empty.
    destruct (bargeGate cfg now JNaN pb r) as [[[] pb'] r']; eexists; reflexivity.
Qed.

(** C7 counterexample: the RMS of the empty frame is NaN, not zero. *)
Lemma empty_frame_rms_not_zero : computeRms [] <> Some (JNum 0).
Proof. rewrite computeRms_empty. discriminate. Qed.

(* ------------------------------------------------------------------ *)
(** ** Pre-roll ring and utterance start *)

(** What the [shift] loop keeps: a nonempty suffix, the count still
    matching; the oldest frames were dropped only while the total was over
    the budget; the total is within budget unless one frame is left. *)
Lemma trimPreRoll_spec (maxB : Z) (pr : list chunk) (b : Z) (pr' : list chunk) (b' : Z) :
  b = total_bytes pr -> pr <> [] ->
  trimPreRoll maxB pr b = (pr', b') ->
  b' = total_bytes pr' /\ pr' <> [] /\
  (exists dropped, pr = dropped ++ pr' /\
     (dropped = [] \/ exists dr d, dropped = dr ++ [d] /\ maxB < clen d + total_bytes pr')) /\
  (total_bytes pr' <= maxB \/ length pr' = 1%nat).
Proof.
  revert b. induction pr as [|x rest IH]; intros b Hb Hne Ht; [congruence|].
  destruct rest as [|y rest'].
  - simpl in Ht. inversion Ht; subst. split; [reflexivity|]. split; [discriminate|].
    split; [exists []; split; [reflexivity|left; reflexivity]|]. right. reflexivity.
  - cbn [trimPreRoll] in Ht. destruct (b >? maxB) eqn:Hgt.
    + destruct (IH (b - clen x)) as (Hb' & Hne' & (dropped & Hd & Hmin) & Hbud);
        [simpl in Hb |- *; lia | discriminate | exact Ht |].
      split; [exact Hb'|]. split; [exact Hne'|].
      split; [|exact Hbud].
      exists (x :: dropped). split; [rewrite Hd; reflexivity|]. right.
      destruct Hmin as [-> | (dr & d & -> & Hlt)].
      * exists [], x. split; [reflexivity|]. simpl in Hd. rewrite <- Hd.
        apply Z.gtb_lt in Hgt. simpl in Hb |- *. lia.
      * exists (x :: dr), d. split; [reflexivity|exact Hlt].
    + inversion Ht; subst. split; [reflexivity|]. split; [discriminate|].
      split; [exists []; split; [reflexivity|left; reflexivity]|]. left.
      rewrite Z.gtb_ltb in Hgt. apply Z.ltb_ge in Hgt. lia.
Qed.

Lemma total_bytes_app (xs ys : list chunk) :
  total_bytes (xs ++ ys) = total_bytes xs + total_bytes ys.
Proof. induction xs as [|x xs IH]; simpl; lia. Qed.

(** C4 (as amended): while Idle and not in playback, the frame is added
    to the pre-roll, which keeps a nonempty suffix ending with this frame:
    the oldest frames are dropped only while the total is above the
    budget, and the total exceeds the budget only when the single newest
    frame is left.  An unvoiced frame stops there; a voiced one makes the
    recording Active with [startedAt = lastAudioAt = now], the pre-roll
    cleared, and a buffer that begins with the retained pre-roll frames in
    their original order. *)
Theorem preRoll_then_utterance_start (cfg : config) (now : Z) (c : chunk)
    (pb : playback) (r : recording) (rms : jsnum) :
  active r = false -> is_playing (status pb) = false ->
  computeRms c = Some rms ->
  preRollBytes r = total_bytes (preRoll r) ->
  let '(pr, prb) :=
    trimPreRoll (maxPreRollBytes cfg) (preRoll r ++ [c]) (preRollBytes r + clen c) in
  prb = total_bytes pr /\
  (exists pre, pr = pre ++ [c]) /\
  (exists dropped, preRoll r ++ [c] = dropped ++ pr /\
     (dropped = [] \/
      exists dr d, dropped = dr ++ [d] /\ maxPreRollBytes cfg < clen d + total_bytes pr)) /\
  (total_bytes pr <= maxPreRollBytes cfg \/ pr = [c]) /\
  (js_ge rms (SILENCE_THRESHOLD cfg) = false ->
     exists r', onData cfg now c pb r = Some (pb, r') /\
       active r' = false /\ preRoll r' = pr /\ preRollBytes r' = prb /\
       chunks r' = chunks r /\ bytes r' = bytes r) /\
  (js_ge rms (SILENCE_THRESHOLD cfg) = true ->
     exists r', onData cfg now c pb r = Some (pb, r') /\
       active r' = true /\ startedAt r' = Some now /\ lastAudioAt r' = now /\
       preRoll r' = [] /\ preRollBytes r' = 0 /\
       exists rest, chunks r' = pr ++ rest).
Proof.
  intros Ha Hp Hrms Hb.
  destruct (trimPreRoll (maxPreRollBytes cfg) (preRoll r ++ [c]) (preRollBytes r + clen c))
    as [pr prb] eqn:Ht.
  destruct (trimPreRoll_spec (maxPreRollBytes cfg) (preRoll r ++ [c]) (preRollBytes r + clen c) pr prb)
    as (Hprb & Hne & (dropped & Hd & Hmin) & Hbud);
    [rewrite total_bytes_app, Hb; simpl; lia | destruct (preRoll r); discriminate
    | exact Ht |].
  assert (Hlast : exists pre, pr = pre ++ [c]).
  { destruct (exists_last Hne) as (pre & x & Hx). exists pre.
    rewrite Hx, app_assoc in Hd. apply app_inj_tail in Hd as [_ ->]. exact Hx. }
  split; [exact Hprb|]. split; [exact Hlast|].
  split; [exists dropped; split; [exact Hd|exact Hmin]|].
  split.
  { destruct Hbud as [Hle|H1]; [left; exact Hle|right].
    destruct Hlast as [pre ->]. rewrite length_app in H1. simpl in H1.
    destruct pre; [reflexivity|simpl in H1; lia]. }
  unfold onData. rewrite Hrms. unfold bargeGate. rewrite Hp.
  unfold segmentFrame. rewrite Ha, Ht.
  split; intros He; rewrite He; eexists; (split; [reflexivity|]); simpl.
  - repeat split; assumption.
  - repeat split. exists [c]. reflexivity.
Qed.

Lemma preRoll_then_utterance_start_witness :
  let r := idle_with_preroll in
  let c := frame_of_samples [16384] in
  active r = false /\ is_playing (status idle_playback) = false /\
  computeRms c = Some (JNum (IZR 16384 / 32768)) /\ preRollBytes r = total_bytes (preRoll r) /\
  trimPreRoll (maxPreRollBytes short_preroll_config) (preRoll r ++ [c])
    (preRollBytes r + clen c) = ([c], 2) /\
  js_ge (JNum (IZR 16384 / 32768)) (SILENCE_THRESHOLD short_preroll_config) = true /\
  (exists r', onData short_preroll_config 5 c idle_playback r = Some (idle_playback, r') /\
     active r' = true /\ startedAt r' = Some 5 /\ lastAudioAt r' = 5 /\
     preRoll r' = [] /\ preRollBytes r' = 0 /\ exists rest, chunks r' = c :: rest).
Proof.
  intros r c.
  assert (Hc : computeRms c = Some (JNum (IZR 16384 / 32768))).
  { apply computeRms_const; [discriminate|lia|].
    constructor; [split; [reflexivity|lia]|constructor]. }
  assert (Ht : trimPreRoll (maxPreRollBytes short_preroll_config) (preRoll r ++ [c])
                 (preRollBytes r + clen c) = ([c], 2)) by (vm_compute; reflexivity).
  assert (He : js_ge (JNum (IZR 16384 / 32768)) (SILENCE_THRESHOLD short_preroll_config) = true).
  { unfold js_ge. cbn [SILENCE_THRESHOLD short_preroll_config].
    destruct (Rle_dec (1 / 100) (IZR 16384 / 32768)) as [_|N]; [reflexivity|].
    exfalso. apply N. unfold Rdiv. rewrite <- (Rmult_1_l (IZR 16384 * / 32768)).
    apply Rmult_le_compat; lra. }
  split; [reflexivity|]. split; [reflexivity|]. split; [exact Hc|].
  split; [vm_compute; reflexivity|]. split; [exact Ht|]. split; [exact He|].
  pose proof (preRoll_then_utterance_start short_preroll_config 5 c idle_playback r
                (JNum (IZR 16384 / 32768)) eq_refl eq_refl Hc ltac:(vm_compute; reflexivity)) as H.
  rewrite Ht in H.
  destruct H as (_ & _ & _ & _ & _ & Hon).
  destruct (Hon He) as (r' & Hr' & Hact & Hst & Hla & Hpr & Hprb & rest & Hch).
  exists r'. repeat (split; [assumption|]). exists rest. exact Hch.
Defined.

(** C4 counterexample: with [PRE_ROLL_MS=10] an unvoiced (all-zero)
    20 ms decoder frame of 3840 bytes stays in the pre-roll although it
    alone exceeds the 1920-byte budget. *)
Lemma preRoll_keeps_frame_over_budget :
  let c := decoder_frame 0 in
  exists r', onData short_preroll_config 0 c idle_playback
               (fresh_recording "323379312608673803") = Some (idle_playback, r') /\
    preRoll r' = [c] /\ maxPreRollBytes short_preroll_config < total_bytes (preRoll r').
Proof.
  intros c.
  assert (Hc : computeRms c = Some (JNum (IZR 0 / 32768))).
  { apply computeRms_const; [discriminate | lia |].
    apply Forall_repeat_Z. simpl. lia. }
  assert (He : js_ge (JNum (IZR 0 / 32768)) (SILENCE_THRESHOLD short_preroll_config) = false).
  { unfold js_ge. simpl SILENCE_THRESHOLD.
    destruct (Rle_dec (1 / 100) (IZR 0 / 32768)) as [H|]; [|reflexivity].
    exfalso. unfold Rdiv in H. rewrite Rmult_0_l in H. lra. }
  unfold onData. rewrite Hc, He.
  eexists. split; [reflexivity|].
  unfold c, decoder_frame. vm_compute. split; reflexivity.
Qed.

(* ------------------------------------------------------------------ *)
(** ** Barge-in *)

(** No frame arriving outside playback touches the player or the
    transcoder. *)
Lemma onData_not_playing (cfg : config) (now : Z) (c : chunk) (pb : playback)
    (r : recording) (rms : jsnum) :
  is_playing (status pb) = false -> computeRms c = Some rms ->
  onData cfg now c pb r =
  Some (pb, segmentFrame cfg now c (js_ge rms (SILENCE_THRESHOLD cfg)) r).
Proof.
  intros Hp Hc. unfold onData. rewrite Hc. unfold bargeGate. now rewrite Hp.
Qed.

(** C5: during playback a frame at or above the barge-in threshold counts
    a hit (one more if the previous hit is less than 250 ms old, else 1).
    Below two hits the frame is dropped and the player and transcoder are
    untouched.  At two hits the player is stopped once, the transcoder (if
    any) is killed and forgotten, [bargeHits] is cleared, and the frame
    goes on into segmentation; afterwards the player is Idle, so later
    frames do not stop it again.  Every other frame during playback is
    dropped (its pre-roll cleared), so it never reaches the segmenter. *)
Theorem barge_in_debounce (cfg : config) (now : Z) (c : chunk) (pb : playback)
    (r : recording) (rms : jsnum) :
  is_playing (status pb) = true -> computeRms c = Some rms ->
  let energetic := js_ge rms (SILENCE_THRESHOLD cfg) in
  let hits := if now - bargeLastAt r <? 250 then bargeHits r + 1 else 1 in
  let pb' := kill_current (player_stop pb) in
  (BARGE_IN_ENABLED cfg && js_ge rms (BARGE_IN_THRESHOLD cfg) = true ->
     (hits < 2 ->
        onData cfg now c pb r = Some (pb, set_barge r hits now) /\
        active (set_barge r hits now) = active r /\
        chunks (set_barge r hits now) = chunks r) /\
     (2 <= hits ->
        onData cfg now c pb r =
          Some (pb', segmentFrame cfg now c energetic (set_barge r 0 now)) /\
        status pb' = PIdle /\ stopCalls pb' = S (stopCalls pb) /\
        currentPlayback pb' = None /\
        killed pb' = match currentPlayback pb with
                     | Some pid => pid :: killed pb
                     | None => killed pb
                     end /\
        (forall (now2 : Z) (c2 : chunk) (r2 : recording) (rms2 : jsnum),
           computeRms c2 = Some rms2 ->
           onData cfg now2 c2 pb' r2 =
           Some (pb', segmentFrame cfg now2 c2 (js_ge rms2 (SILENCE_THRESHOLD cfg)) r2)))) /\
  (BARGE_IN_ENABLED cfg && js_ge rms (BARGE_IN_THRESHOLD cfg) = false ->
     onData cfg now c pb r = Some (pb, clear_preRoll r) /\
     active (clear_preRoll r) = active r /\ chunks (clear_preRoll r) = chunks r).
Proof.
  intros Hp Hc energetic hits pb'.
  unfold onData. rewrite Hc. unfold bargeGate. rewrite Hp. fold energetic.
  split.
  - intros Hb. rewrite Hb. fold hits. split.
    + intros Hlt. replace (hits >=? 2) with false by lia. repeat split.
    + intros Hge. replace (hits >=? 2) with true by lia.
      split; [reflexivity|].
      assert (Hst : status pb' = PIdle).
      { unfold pb', kill_current, player_stop. simpl. now destruct (currentPlayback pb). }
      split; [exact Hst|].
      split; [unfold pb', kill_current, player_stop; simpl; now destruct (currentPlayback pb)|].
      split; [unfold pb', kill_current, player_stop; simpl; now destruct (currentPlayback pb)|].
      split; [unfold pb', kill_current, player_stop; simpl; now destruct (currentPlayback pb)|].
      intros now2 c2 r2 rms2 Hc2.
      rewrite <- (onData_not_playing cfg now2 c2 pb' r2 rms2); [|rewrite Hst; reflexivity|exact Hc2].
      reflexivity.
  - intros Hb. rewrite Hb. repeat split.
Qed.

(** A second hit 100 ms after the first, on a full-scale frame. *)
Lemma barge_in_debounce_witness :
  let r := set_barge (fresh_recording "323379312608673803") 1 100 in
  let c := decoder_frame 32767 in
  is_playing (status (playing_playback 42)) = true /\
  computeRms c = Some (JNum (IZR 32767 / 32768)) /\
  onData default_config 200 c (playing_playback 42) r =
    Some (kill_current (player_stop (playing_playback 42)),
          segmentFrame default_config 200 c
            (js_ge (JNum (IZR 32767 / 32768)) (SILENCE_THRESHOLD default_config))
            (set_barge r 0 200)) /\
  killed (kill_current (player_stop (playing_playback 42))) = [42].
Proof.
  intros r c.
  assert (Hc : computeRms c = Some (JNum (IZR 32767 / 32768))).
  { apply computeRms_const; [discriminate | lia |].
    apply Forall_repeat_Z. simpl. lia. }
  assert (Hb : BARGE_IN_ENABLED default_config &&
               js_ge (JNum (IZR 32767 / 32768)) (BARGE_IN_THRESHOLD default_config) = true).
  { unfold js_ge. simpl BARGE_IN_THRESHOLD. simpl BARGE_IN_ENABLED.
    destruct (Rle_dec (2 / 100) (IZR 32767 / 32768)) as [|N]; [reflexivity|].
    exfalso. apply N. unfold Rdiv. lra. }
  split; [reflexivity|]. split; [exact Hc|].
  destruct (barge_in_debounce default_config 200 c (playing_playback 42) r _
              eq_refl Hc) as [Hon _].
  destruct (Hon Hb) as [_ Htrig].
  destruct (Htrig ltac:(vm_compute; discriminate)) as (Heq & _ & _ & _ & Hk & _).
  split; [exact Heq | exact Hk].
Defined.

(* ------------------------------------------------------------------ *)
(** ** Rate limiter *)

(** A request inside the current window: refused with the entry
    unchanged at or above the ceiling, else allowed with its counter
    incremented. *)
Lemma isRateLimited_in_window (cfg : config) (now : Z) (rl : gmap string rl_entry)
    (u : string) (k : kind) (e : rl_entry) :
  rl !! u = Some e -> now - windowStart e < RATE_LIMIT_WINDOW_MS cfg ->
  (ceiling cfg k <= count_of k e -> isRateLimited cfg now rl u k = (true, <[u := e]> rl)) /\
  (count_of k e < ceiling cfg k ->
     exists e', isRateLimited cfg now rl u k = (false, <[u := e']> rl) /\
       windowStart e' = windowStart e /\ count_of k e' = count_of k e + 1).
Proof.
  intros Hl Hw. unfold isRateLimited. rewrite Hl. simpl default.
  replace (now - windowStart e >=? RATE_LIMIT_WINDOW_MS cfg) with false by lia.
  destruct k; simpl in *; split; intros Hc.
  - replace (sttCount e >=? RATE_LIMIT_STT_MAX cfg) with true by lia. reflexivity.
  - replace (sttCount e >=? RATE_LIMIT_STT_MAX cfg) with false by lia.
    eexists. split; [reflexivity|]. split; reflexivity.
  - replace (ttsCount e >=? RATE_LIMIT_TTS_MAX cfg) with true by lia. reflexivity.
  - replace (ttsCount e >=? RATE_LIMIT_TTS_MAX cfg) with false by lia.
    eexists. split; [reflexivity|]. split; reflexivity.
Qed.

(** A request with no entry, or after the window has elapsed: the window
    restarts at [now] with both counters zero, then the request is
    counted against the ceiling. *)
Lemma isRateLimited_new_window (cfg : config) (now : Z) (rl : gmap string rl_entry)
    (u : string) (k : kind) :
  match rl !! u with
  | None => True
  | Some e => now - windowStart e >= RATE_LIMIT_WINDOW_MS cfg
  end ->
  (ceiling cfg k <= 0 ->
     isRateLimited cfg now rl u k =
     (true, <[u := {| windowStart := now; sttCount := 0; ttsCount := 0 |}]> rl)) /\
  (0 < ceiling cfg k ->
     exists e', isRateLimited cfg now rl u k = (false, <[u := e']> rl) /\
       windowStart e' = now /\ count_of k e' = 1 /\ sttCount e' + ttsCount e' = 1).
Proof.
  intros Hw. unfold isRateLimited.
  assert (He : (if now - windowStart (default {| windowStart := now; sttCount := 0; ttsCount := 0 |} (rl !! u))
                   >=? RATE_LIMIT_WINDOW_MS cfg
                then {| windowStart := now; sttCount := 0; ttsCount := 0 |}
                else default {| windowStart := now; sttCount := 0; ttsCount := 0 |} (rl !! u))
               = {| windowStart := now; sttCount := 0; ttsCount := 0 |}).
  { destruct (rl !! u) as [e|]; simpl default.
    - replace (now - windowStart e >=? RATE_LIMIT_WINDOW_MS cfg) with true by lia. reflexivity.
    - simpl. now destruct (now - now >=? RATE_LIMIT_WINDOW_MS cfg). }
  rewrite He. destruct k; simpl; split; intros Hc.
  - replace (0 >=? RATE_LIMIT_STT_MAX cfg) with true by lia. reflexivity.
  - replace (0 >=? RATE_LIMIT_STT_MAX cfg) with false by lia.
    eexists. split; [reflexivity|]. repeat split.
  - replace (0 >=? RATE_LIMIT_TTS_MAX cfg) with true by lia. reflexivity.
  - replace (0 >=? RATE_LIMIT_TTS_MAX cfg) with false by lia.
    eexists. split; [reflexivity|]. repeat split.
Qed.

(** Requests inside one window, from a counter [count_of k e] at most the
    ceiling: allowed while the counter is below the ceiling, refused after. *)
Lemma requests_in_window (cfg : config) (u : string) (k : kind) (ws : Z) (ts : list Z) :
  forall (rl : gmap string rl_entry) (e : rl_entry) (bs : list bool) (rl' : gmap string rl_entry),
  rl !! u = Some e -> windowStart e = ws -> 0 <= count_of k e <= ceiling cfg k ->
  Forall (fun t => t - ws < RATE_LIMIT_WINDOW_MS cfg) ts ->
  requests cfg rl u k ts = (bs, rl') ->
  bs = repeat false (Nat.min (length ts) (Z.to_nat (ceiling cfg k - count_of k e))) ++
       repeat true (length ts - Z.to_nat (ceiling cfg k - count_of k e)) /\
  exists e', rl' !! u = Some e' /\ windowStart e' = ws /\ count_of k e' <= ceiling cfg k.
Proof.
  induction ts as [|t ts IH]; intros rl e bs rl' Hl Hws Hc Hall Hrun.
  - simpl in Hrun. inversion Hrun; subst. split; [reflexivity|].
    exists e. split; [exact Hl|]. split; [reflexivity|lia].
  - inversion Hall as [|? ? Ht Hrest]; subst.
    destruct (isRateLimited_in_window cfg t rl u k e Hl Ht) as [Href Hok].
    cbn [requests] in Hrun.
    destruct (Z.le_gt_cases (ceiling cfg k) (count_of k e)) as [Hfull|Hroom].
    + rewrite (Href Hfull) in Hrun.
      destruct (requests cfg (<[u:=e]> rl) u k ts) as [bs1 rl1] eqn:Hr1.
      inversion Hrun; subst.
      destruct (IH (<[u:=e]> rl) e bs1 rl' ltac:(apply lookup_insert_eq) eq_refl Hc Hrest Hr1)
        as [Hbs Hfin].
      split; [|exact Hfin].
      replace (Z.to_nat (ceiling cfg k - count_of k e)) with 0%nat in * by lia.
      rewrite Hbs, Nat.min_0_r, Nat.sub_0_r. reflexivity.
    + destruct (Hok Hroom) as (e' & Heq & Hws' & Hc').
      rewrite Heq in Hrun.
      destruct (requests cfg (<[u:=e']> rl) u k ts) as [bs1 rl1] eqn:Hr1.
      inversion Hrun; subst.
      destruct (IH (<[u:=e']> rl) e' bs1 rl' ltac:(apply lookup_insert_eq) Hws' ltac:(lia) Hrest Hr1)
        as [Hbs Hfin].
      split; [|exact Hfin].
      replace (Z.to_nat (ceiling cfg k - count_of k e))
        with (S (Z.to_nat (ceiling cfg k - count_of k e'))) by lia.
      rewrite Hbs. reflexivity.
Qed.

(** C8: for one participant and kind, requests at [t0] (opening a window:
    no entry yet, or the previous window has elapsed) and then at times
    [ts] inside that window are allowed exactly for the first
    [ceiling] of them and refused after; the entry keeps the window start
    [t0] and its counter never exceeds the ceiling; once the window has
    elapsed, with a positive ceiling, the next request is allowed and
    restarts the window with that counter at 1 and the other at 0. *)
Theorem rate_limit_fixed_window (cfg : config) (rl : gmap string rl_entry) (u : string)
    (k : kind) (t0 : Z) (ts : list Z) (bs : list bool) (rl' : gmap string rl_entry) :
  0 <= ceiling cfg k ->
  match rl !! u with
  | None => True
  | Some e => t0 - windowStart e >= RATE_LIMIT_WINDOW_MS cfg
  end ->
  Forall (fun t => t - t0 < RATE_LIMIT_WINDOW_MS cfg) ts ->
  requests cfg rl u k (t0 :: ts) = (bs, rl') ->
  bs = repeat false (Nat.min (S (length ts)) (Z.to_nat (ceiling cfg k))) ++
       repeat true (S (length ts) - Z.to_nat (ceiling cfg k)) /\
  (exists e', rl' !! u = Some e' /\ windowStart e' = t0 /\ count_of k e' <= ceiling cfg k) /\
  (forall t : Z, t - t0 >= RATE_LIMIT_WINDOW_MS cfg -> 0 < ceiling cfg k ->
     exists rl'', isRateLimited cfg t rl' u k = (false, rl'') /\
       exists e'', rl'' !! u = Some e'' /\ windowStart e'' = t /\
         count_of k e'' = 1 /\ sttCount e'' + ttsCount e'' = 1).
Proof.
  intros Hc0 Hnew Hall Hrun.
  assert (Hfirst :
    bs = repeat false (Nat.min (S (length ts)) (Z.to_nat (ceiling cfg k))) ++
         repeat true (S (length ts) - Z.to_nat (ceiling cfg k)) /\
    (exists e', rl' !! u = Some e' /\ windowStart e' = t0 /\ count_of k e' <= ceiling cfg k)).
  { destruct (isRateLimited_new_window cfg t0 rl u k Hnew) as [Hz Hpos].
    cbn [requests] in Hrun.
    destruct (Z.le_gt_cases (ceiling cfg k) 0) as [Hle|Hgt].
    - rewrite (Hz Hle) in Hrun.
      set (e0 := {| windowStart := t0; sttCount := 0; ttsCount := 0 |}) in Hrun.
      destruct (requests cfg (<[u:=e0]> rl) u k ts) as [bs1 rl1] eqn:Hr1.
      injection Hrun as Hb Hr; subst bs rl1.
      destruct (requests_in_window cfg u k t0 ts (<[u:=e0]> rl) e0 bs1 rl')
        as [Hbs Hfin]; [apply lookup_insert_eq | reflexivity | unfold e0; destruct k; simpl in *; lia
                       | exact Hall | exact Hr1 |].
      split; [|exact Hfin].
      replace (Z.to_nat (ceiling cfg k)) with 0%nat by lia.
      replace (Z.to_nat (ceiling cfg k - count_of k e0)) with 0%nat in Hbs
        by (unfold e0; destruct k; simpl in *; lia).
      rewrite Hbs, Nat.min_0_r, Nat.sub_0_r. reflexivity.
    - destruct (Hpos Hgt) as (e' & Heq & Hws & Hc1 & _).
      rewrite Heq in Hrun.
      destruct (requests cfg (<[u:=e']> rl) u k ts) as [bs1 rl1] eqn:Hr1.
      injection Hrun as Hb Hr; subst bs rl1.
      destruct (requests_in_window cfg u k t0 ts (<[u:=e']> rl) e' bs1 rl')
        as [Hbs Hfin]; [apply lookup_insert_eq | exact Hws | lia | exact Hall | exact Hr1 |].
      split; [|exact Hfin].
      replace (Z.to_nat (ceiling cfg k))
        with (S (Z.to_nat (ceiling cfg k - count_of k e'))) by lia.
      rewrite Hbs. reflexivity. }
  destruct Hfirst as [Hbs (e' & Hl' & Hws' & Hce')].
  split; [exact Hbs|]. split; [exists e'; split; [exact Hl'|]; split; assumption|].
  intros t Ht Hpos.
  destruct (isRateLimited_new_window cfg t rl' u k ltac:(rewrite Hl'; lia)) as [_ Hnext].
  destruct (Hnext Hpos) as (e'' & Heq & Hws'' & H1 & Hsum).
  exists (<[u:=e'']> rl'). split; [exact Heq|].
  exists e''. split; [apply lookup_insert_eq|]. split; [exact Hws''|]. split; assumption.
Qed.

(** Eleven speech-to-text requests inside one minute: ten allowed, the
    eleventh refused; a twelfth a minute later is allowed. *)
Lemma rate_limit_fixed_window_witness :
  fst (requests default_config ∅ "323379312608673803" stt
         [0; 1; 2; 3; 4; 5; 6; 7; 8; 9; 10]) =
  repeat false 10 ++ [true] /\
  fst (isRateLimited default_config 60000
         (snd (requests default_config ∅ "323379312608673803" stt
                 [0; 1; 2; 3; 4; 5; 6; 7; 8; 9; 10])) "323379312608673803" stt) = false.
Proof.
  destruct (requests default_config ∅ "323379312608673803" stt
              [0; 1; 2; 3; 4; 5; 6; 7; 8; 9; 10]) as [bs rl'] eqn:E.
  destruct (rate_limit_fixed_window default_config ∅ "323379312608673803" stt 0
              [1; 2; 3; 4; 5; 6; 7; 8; 9; 10] bs rl') as (Hbs & _ & Hafter);
    [zcheck | exact I | repeat constructor | exact E |].
  split; [simpl; rewrite Hbs; reflexivity|].
  destruct (Hafter 60000 ltac:(zcheck) ltac:(zcheck)) as (rl'' & Heq & _).
  cbn [snd]. rewrite Heq. reflexivity.
Defined.

(* ------------------------------------------------------------------ *)
(** ** Re-arm after [endAndFinalize] *)

(** C9 (code bug): [endAndFinalize] is never called; the handlers that end
    a recording's streams ([opusStream] [close] and [error], [pcmStream]
    [error]) only call [cleanupRecording].  So when the Opus stream of a
    recording of an allowlisted user closes while the user is still in the
    channel, the session was not left on purpose and it is not in standby,
    the recording is removed and no re-arm timer is scheduled, although
    every condition of the re-arm then holds: no recording is re-created. *)
Lemma stream_close_never_rearms :
  let u := "323379312608673803" in
  let ch : channel_view := Some [mkMember u false] in
  let st := startRecording (sample_session false false) u in
  (exists m, ch = Some [m] /\ memberId m = u) /\ allowlisted u = true /\
  is_Some (recordings st !! u) /\ manualLeave st = false /\ standby st = false /\
  recordings (fst (streamEnd st u)) !! u = None /\
  manualLeave (fst (streamEnd st u)) = false /\ standby (fst (streamEnd st u)) = false /\
  snd (streamEnd st u) = [].
Proof.
  intros u ch st. split; [exists (mkMember u false); split; reflexivity|].
  vm_compute. repeat split. eexists. reflexivity.
Qed.

(* ------------------------------------------------------------------ *)
(** ** Standby and the recordings map *)

Ltac keep_clean H :=
  let K := fresh in intros K; apply H; first [exact K | reflexivity].

Lemma fold_cleanup_recordings (ks : list string) (st : session) :
  recordings (fold_left cleanupRecording ks st) =
  fold_left (fun m k => delete k m) ks (recordings st).
Proof. revert st. induction ks as [|k ks IH]; intros st; [reflexivity|]. apply IH. Qed.

Lemma fold_delete_all (ks : list string) (m : gmap string recording) :
  (forall k x, m !! k = Some x -> In k ks) ->
  fold_left (fun m k => delete k m) ks m = ∅.
Proof.
  revert m. induction ks as [|k ks IH]; intros m Hks.
  - simpl. apply map_empty. intros i. destruct (m !! i) eqn:E; [|reflexivity].
    destruct (Hks i r E).
  - simpl. apply IH. intros k' x Hx.
    apply lookup_delete_Some in Hx as [Hne Hx].
    destruct (Hks k' x Hx) as [->|Hin]; [congruence|exact Hin].
Qed.

Lemma keys_in_map_to_list (m : gmap string recording) (k : string) (x : recording) :
  m !! k = Some x -> In k (map fst (map_to_list m)).
Proof.
  intros Hx. apply in_map_iff. exists (k, x). split; [reflexivity|].
  apply list_elem_of_In, elem_of_map_to_list. exact Hx.
Qed.

Lemma startRecording_noop (st : session) (u : string) :
  standby st = true \/ allowlisted u = false \/ is_Some (recordings st !! u) ->
  startRecording st u = st.
Proof.
  intros H. unfold startRecording.
  destruct (allowlisted u) eqn:Ha; [|reflexivity]. simpl.
  destruct (standby st) eqn:Hs; [reflexivity|].
  destruct H as [H|[H|[x Hx]]]; try discriminate. now rewrite Hx.
Qed.

Lemma startRecording_clean (st : session) (u : string) :
  (standby st = true -> recordings st = ∅) ->
  standby (startRecording st u) = true -> recordings (startRecording st u) = ∅.
Proof.
  intros Hinv. unfold startRecording.
  destruct (allowlisted u); [|exact Hinv]. simpl.
  destruct (standby st) eqn:Hs; [keep_clean Hinv|].
  destruct (recordings st !! u); [rewrite Hs; keep_clean Hinv|]. simpl. rewrite Hs. discriminate.
Qed.

Lemma cleanupRecording_clean (st : session) (u : string) :
  (standby st = true -> recordings st = ∅) ->
  standby (cleanupRecording st u) = true -> recordings (cleanupRecording st u) = ∅.
Proof.
  intros Hinv Hs. simpl in *. rewrite (Hinv Hs). apply delete_empty.
Qed.

Lemma fold_left_clean {A : Type} (f : session -> A -> session) :
  (forall s a, (standby s = true -> recordings s = ∅) ->
               standby (f s a) = true -> recordings (f s a) = ∅) ->
  forall (l : list A) (s : session),
  (standby s = true -> recordings s = ∅) ->
  standby (fold_left f l s) = true -> recordings (fold_left f l s) = ∅.
Proof.
  intros Hf l. induction l as [|a l IH]; intros s Hs; [exact Hs|].
  simpl. apply IH. apply Hf. exact Hs.
Qed.

(** Entering standby empties the map; leaving it only starts recordings. *)
Lemma refreshStandby_clean (st : session) (ch : channel_view) :
  (standby st = true -> recordings st = ∅) ->
  standby (refreshStandby st ch) = true -> recordings (refreshStandby st ch) = ∅.
Proof.
  intros Hinv. unfold refreshStandby.
  set (should := Nat.eqb _ 0).
  destruct (Bool.eqb should (standby st)) eqn:Heq; [exact Hinv|].
  destruct should eqn:Hsh.
  - intros _. rewrite fold_cleanup_recordings. apply fold_delete_all.
    intros k x Hx. eapply keys_in_map_to_list. exact Hx.
  - destruct ch as [ms|].
    + apply fold_left_clean; [|simpl; discriminate].
      intros s m Hs. destruct (allowlisted (memberId m)); [|exact Hs].
      apply startRecording_clean. exact Hs.
    + simpl. discriminate.
Qed.

Lemma session_step_clean (st st' : session) :
  session_step st st' ->
  (standby st = true -> recordings st = ∅) ->
  standby st' = true -> recordings st' = ∅.
Proof.
  intros Hstep Hinv. destruct Hstep.
  - now apply startRecording_clean.
  - now apply cleanupRecording_clean.
  - now apply refreshStandby_clean.
  - unfold primeSubscriptions. apply fold_left_clean; [|exact Hinv].
    intros s m Hs. destruct (allowlisted (memberId m)); [|exact Hs]. simpl.
    pose proof (startRecording_clean s (memberId m) Hs) as Hst.
    destruct (standby s); [keep_clean Hs|exact Hst].
  - unfold voiceStateUpdate. destruct (allowlisted uid); [|exact Hinv]. simpl.
    pose proof (refreshStandby_clean st ch Hinv) as H1.
    set (st1 := refreshStandby st ch) in *.
    assert (H2 : standby (if negb (standby st1) && bool_decide (newCh = Some (channelId st1))
                          then startRecording st1 uid else st1) = true ->
                 recordings (if negb (standby st1) && bool_decide (newCh = Some (channelId st1))
                             then startRecording st1 uid else st1) = ∅).
    { destruct (negb (standby st1) && _); [now apply startRecording_clean | exact H1]. }
    set (st2 := if negb (standby st1) && _ then _ else _) in *.
    destruct (bool_decide (oldCh = Some (channelId st2)) && _);
      [now apply cleanupRecording_clean | exact H2].
  - unfold rearm. destruct (match ch with Some ms => _ | None => false end); [|exact Hinv].
    simpl. destruct (manualLeave st); [exact Hinv|].
    destruct (recordings st !! u); [exact Hinv|]. now apply startRecording_clean.
  - simpl. now apply cleanupRecording_clean.
Qed.

(** C10: in every reachable session, standby implies an empty recordings
    map; [startRecording] does nothing in standby, for a user outside the
    allowlist or for a user already recording; and the Off -> On transition
    of [refreshStandby] leaves no recording (it only deletes entries: no
    finalize is issued). *)
Theorem standby_excludes_recordings (st : session) :
  reachable st ->
  (standby st = true -> recordings st = ∅) /\
  (forall u : string,
     standby st = true \/ allowlisted u = false \/ is_Some (recordings st !! u) ->
     startRecording st u = st) /\
  (forall ch : channel_view,
     standby st = false -> standby (refreshStandby st ch) = true ->
     recordings (refreshStandby st ch) = ∅).
Proof.
  intros Hr. split; [|split].
  - induction Hr as [chId ms ch|st st' Hr IH Hstep].
    + unfold connectToChannel. apply refreshStandby_clean.
      unfold primeSubscriptions. apply fold_left_clean; [|simpl; discriminate].
      intros s m Hs. destruct (allowlisted (memberId m)); [|exact Hs]. simpl.
      pose proof (startRecording_clean s (memberId m) Hs) as Hst.
    destruct (standby s); [keep_clean Hs|exact Hst].
    + exact (session_step_clean st st' Hstep IH).
  - intros u. apply startRecording_noop.
  - intros ch Hoff. apply refreshStandby_clean. rewrite Hoff. discriminate.
Qed.

(** Joining a channel with no allowlisted member enters standby at once. *)
Lemma standby_excludes_recordings_witness :
  reachable (connectToChannel "voice" [] (Some [])) /\
  standby (connectToChannel "voice" [] (Some [])) = true /\
  recordings (connectToChannel "voice" [] (Some [])) = ∅.
Proof.
  split; [apply reach_connect|]. split; [reflexivity|].
  apply (standby_excludes_recordings (connectToChannel "voice" [] (Some []))
           (reach_connect "voice" [] (Some []))).
  reflexivity.
Defined.

(* ================================================================== *)
(** * Further properties of the code *)

(* ------------------------------------------------------------------ *)
(** ** Little-endian sample codec *)

Lemma lor_low_high (b0 b1 : Z) :
  0 <= b0 < 256 -> 0 <= b1 -> Z.lor b0 (Z.shiftl b1 8) = b0 + b1 * 256.
Proof.
  intros H0 H1. rewrite <- Z.lxor_lor, <- Z.add_nocarry_lxor
    by (apply land_shiftl_low; exact H0).
  rewrite Z.shiftl_mul_pow2 by lia. reflexivity.
Qed.

Lemma readInt16LE_value (b0 b1 : Z) :
  0 <= b0 < 256 -> 0 <= b1 < 256 ->
  readInt16LE b0 b1 =
    if b0 + b1 * 256 >=? 32768 then b0 + b1 * 256 - 65536 else b0 + b1 * 256.
Proof. intros H0 H1. unfold readInt16LE. now rewrite lor_low_high by lia. Qed.

Lemma readInt16LE_range (b0 b1 : Z) :
  0 <= b0 < 256 -> 0 <= b1 < 256 -> -32768 <= readInt16LE b0 b1 <= 32767.
Proof.
  intros H0 H1. rewrite readInt16LE_value by lia.
  destruct (b0 + b1 * 256 >=? 32768) eqn:E;
    [apply Z.geb_le in E | rewrite Z.geb_leb in E; apply Z.leb_gt in E]; lia.
Qed.

Lemma encode_readInt16LE (b0 b1 : Z) :
  0 <= b0 < 256 -> 0 <= b1 < 256 -> encodeInt16LE (readInt16LE b0 b1) = [b0; b1].
Proof.
  intros H0 H1. rewrite readInt16LE_value by lia. unfold encodeInt16LE.
  change 255 with (Z.ones 8).
  rewrite !Z.land_ones, Z.shiftr_div_pow2 by lia. change (2 ^ 8) with 256.
  destruct (b0 + b1 * 256 >=? 32768).
  - replace (b0 + b1 * 256 - 65536) with (b0 + (b1 - 256) * 256) by ring.
    rewrite Z.div_add by lia. rewrite (Z.div_small b0 256) by lia.
    rewrite Z.add_0_l, Z.mod_add by lia.
    rewrite (Z.mod_small b0 256) by lia.
    replace (b1 - 256) with (b1 + (-1) * 256) by ring.
    rewrite Z.mod_add by lia. now rewrite Z.mod_small by lia.
  - rewrite Z.div_add, Z.mod_add by lia.
    rewrite (Z.div_small b0 256), (Z.mod_small b0 256) by lia.
    now rewrite Z.add_0_l, Z.mod_small by lia.
Qed.

(** X1: decoding with [readInt16LE] (the loop of [pcmToWav] and
    [computeRms]) inverts the little-endian encoding of 16-bit samples,
    and every buffer of bytes of even length is the encoding of the
    samples it decodes to. *)
Theorem pcm_codec_roundtrip :
  (forall ss : list Z, Forall (fun s => -32768 <= s <= 32767) ss ->
     pcmSamples (frame_of_samples ss) = Some ss) /\
  (forall (pcm : chunk) (ss : list Z), Forall (fun b => 0 <= b < 256) pcm ->
     pcmSamples pcm = Some ss -> frame_of_samples ss = pcm).
Proof.
  split.
  - induction ss as [|s ss IH]; intros Hall; [reflexivity|].
    inversion Hall as [|? ? Hs Hrest]; subst. simpl.
    rewrite (IH Hrest), (readInt16LE_encode s Hs). reflexivity.
  - fix IH 1. intros pcm ss Hall Hd.
    destruct pcm as [|b0 [|b1 rest]]; simpl in Hd.
    + injection Hd as <-. reflexivity.
    + discriminate.
    + destruct (pcmSamples rest) as [ss'|] eqn:Er; [|discriminate].
      injection Hd as <-.
      inversion Hall as [|? ? H0 Hall1]; subst.
      inversion Hall1 as [|? ? H1 Hall2]; subst.
      unfold frame_of_samples. cbn [flat_map].
      rewrite encode_readInt16LE by assumption. cbn [app].
      f_equal. f_equal. exact (IH rest ss' Hall2 Er).
Qed.

(** Decoding fails exactly on odd lengths. *)
Lemma pcmSamples_none_iff (pcm : chunk) :
  pcmSamples pcm = None <-> Nat.odd (length pcm) = true.
Proof.
  revert pcm. fix IH 1. intros pcm.
  destruct pcm as [|b0 [|b1 rest]]; simpl.
  - split; discriminate.
  - split; reflexivity.
  - rewrite Nat.odd_succ, Nat.even_succ.
    specialize (IH rest).
    destruct (pcmSamples rest); split; intros H; try discriminate;
      try reflexivity; apply IH in H; congruence.
Qed.

(* ------------------------------------------------------------------ *)
(** ** Range of the energy measure *)

Lemma sample_square_bounds (b0 b1 : Z) :
  0 <= b0 < 256 -> 0 <= b1 < 256 ->
  (0 <= (IZR (readInt16LE b0 b1) / 32768) * (IZR (readInt16LE b0 b1) / 32768) <= 1)%R.
Proof.
  intros H0 H1. pose proof (readInt16LE_range b0 b1 H0 H1) as [Hl Hh].
  apply IZR_le in Hl. apply IZR_le in Hh.
  set (v := IZR (readInt16LE b0 b1)) in *.
  assert (Hx : (-1 <= v / 32768 <= 1)%R).
  { split; unfold Rdiv; [|]; lra. }
  set (x := (v / 32768)%R) in *. split; nra.
Qed.

Lemma rms_sum_bounds (c : chunk) (acc : R) :
  Forall (fun b => 0 <= b < 256) c ->
  (Nat.odd (length c) = true -> rms_sum c acc = None) /\
  (Nat.even (length c) = true ->
     exists s, rms_sum c acc = Some s /\ (acc <= s <= acc + INR (length c) / 2)%R).
Proof.
  revert c acc. fix IH 1. intros c acc Hall.
  destruct c as [|b0 [|b1 rest]].
  - split; [discriminate|]. intros _. exists acc. simpl. split; [reflexivity|lra].
  - split; [reflexivity|discriminate].
  - inversion Hall as [|? ? H0 Hall1]; subst.
    inversion Hall1 as [|? ? H1 Hall2]; subst.
    pose proof (sample_square_bounds b0 b1 H0 H1) as Hsq.
    set (q := ((IZR (readInt16LE b0 b1) / 32768) * (IZR (readInt16LE b0 b1) / 32768))%R) in *.
    destruct (IH rest (acc + q)%R Hall2) as [Hodd Heven].
    cbn [rms_sum length]. fold q. rewrite ?Nat.odd_succ, ?Nat.even_succ, ?Nat.odd_succ, ?Nat.even_succ.
    split; [exact Hodd|]. intros He. destruct (Heven He) as [s [Hs Hb]].
    exists s. split; [exact Hs|]. rewrite !S_INR. lra.
Qed.

(** X2: on a buffer of bytes, [computeRms] raises (the last
    [readInt16LE]) exactly on odd lengths; on a nonempty buffer of even
    length it returns a finite number between 0 and 1. *)
Theorem computeRms_range (c : chunk) :
  Forall (fun b => 0 <= b < 256) c ->
  (computeRms c = None <-> Nat.odd (length c) = true) /\
  (Nat.even (length c) = true -> c <> [] ->
     exists r, computeRms c = Some (JNum r) /\ (0 <= r <= 1)%R).
Proof.
  intros Hall. destruct (rms_sum_bounds c 0%R Hall) as [Hodd Heven].
  unfold computeRms. split.
  - split.
    + intros Hn. destruct (Nat.even (length c)) eqn:He.
      * destruct (Heven eq_refl) as [s [Hs _]]. rewrite Hs in Hn. discriminate.
      * rewrite <- Nat.negb_even, He. reflexivity.
    + intros Ho. now rewrite (Hodd Ho).
  - intros He Hne. destruct (Heven He) as [s [Hs [Hlo Hhi]]]. rewrite Hs.
    assert (Hlen : (0 < INR (length c))%R).
    { apply lt_0_INR. destruct c; [congruence|simpl; lia]. }
    unfold js_div. destruct (Req_EM_T (INR (length c) / 2) 0) as [E|_].
    { exfalso. lra. }
    set (n := INR (length c)) in *.
    assert (Hq : (0 <= s / (n / 2) <= 1)%R).
    { split.
      - apply Rmult_le_pos; [lra|]. apply Rlt_le, Rinv_0_lt_compat. lra.
      - apply (Rmult_le_reg_r (n / 2)); [lra|].
        unfold Rdiv at 1. rewrite Rmult_assoc, Rinv_l by lra. lra. }
    cbn [js_sqrt]. destruct (Rlt_dec (s / (n / 2)) 0) as [Hneg|_]; [lra|].
    exists (sqrt (s / (n / 2))). split; [reflexivity|].
    split; [apply sqrt_pos|]. rewrite <- sqrt_1. apply sqrt_le_1_alt. lra.
Qed.

Lemma computeRms_range_witness :
  Forall (fun b => 0 <= b < 256) [255; 127; 0; 128] /\
  exists r, computeRms [255; 127; 0; 128] = Some (JNum r) /\ (0 <= r <= 1)%R.
Proof.
  assert (H : Forall (fun b => 0 <= b < 256) [255; 127; 0; 128]).
  { repeat constructor; lia. }
  split; [exact H|].
  apply (proj2 (computeRms_range [255; 127; 0; 128] H)).
  - reflexivity.
  - discriminate.
Defined.

(* ------------------------------------------------------------------ *)
(** ** Channel split of [pcmToWav] *)

Lemma skipn_nth_cons {A : Type} (l : list A) (a : nat) (d : A) :
  (a < length l)%nat -> skipn a l = nth a l d :: skipn (S a) l.
Proof.
  revert a. induction l as [|x l IH]; intros a Ha; simpl in Ha; [lia|].
  destruct a as [|a]; [reflexivity|]. simpl. apply IH. lia.
Qed.

Lemma map_nth_seq {A : Type} (l : list A) (d : A) (a n : nat) :
  (a + n <= length l)%nat ->
  map (fun c => nth c l d) (seq a n) = firstn n (skipn a l).
Proof.
  revert a. induction n as [|n IH]; intros a Ha; [reflexivity|].
  cbn [seq map]. rewrite (skipn_nth_cons l a d) by lia. cbn [firstn].
  f_equal. apply IH. lia.
Qed.

Lemma firstn_add {A : Type} (a b : nat) (l : list A) :
  firstn (a + b) l = firstn a l ++ firstn b (skipn a l).
Proof.
  revert l. induction a as [|a IH]; intros l; [reflexivity|].
  destruct l as [|x l]; cbn [firstn skipn Nat.add].
  - now rewrite firstn_nil.
  - rewrite IH. reflexivity.
Qed.

Lemma map_seq_shift {A : Type} (f : nat -> A) (a b n : nat) :
  map (fun c => f (a + c)%nat) (seq b n) = map f (seq (a + b) n).
Proof.
  revert b. induction n as [|n IH]; intros b; [reflexivity|].
  cbn [seq map]. f_equal. rewrite IH. f_equal. f_equal. lia.
Qed.

Lemma frames_flatten (fd : list R) (chn s f : nat) :
  (chn * (s + f) <= length fd)%nat ->
  flat_map (fun i => map (fun c => nth (i * chn + c) fd 0%R) (seq 0 chn)) (seq s f) =
  firstn (chn * f) (skipn (chn * s) fd).
Proof.
  revert s. induction f as [|f IH]; intros s Hb.
  - rewrite Nat.mul_0_r. reflexivity.
  - cbn [seq flat_map].
    rewrite (map_seq_shift (fun c => nth c fd 0%R) (s * chn) 0 chn).
    rewrite Nat.add_0_r, map_nth_seq by nia.
    rewrite IH by nia.
    replace (chn * S f)%nat with (chn + chn * f)%nat by lia.
    rewrite firstn_add, skipn_skipn.
    replace (s * chn)%nat with (chn * s)%nat by lia.
    replace (chn + chn * s)%nat with (chn * S s)%nat by lia.
    reflexivity.
Qed.

(** X3: for [channels > 0], [pcmToWav] succeeds on every buffer it can
    decode and splits the samples into [channels] lists of
    [samples / channels] entries each; interleaving them gives back the
    samples, except those of a trailing incomplete frame, which are
    dropped (none when [channels] divides the sample count). *)
Theorem pcmToWav_channel_split (pcm : chunk) (channels : nat) (ss : list Z) :
  (0 < channels)%nat -> pcmSamples pcm = Some ss ->
  let frames := Nat.div (length ss) channels in
  exists cd, pcmToWav_channelData pcm channels = Some cd /\
    length cd = channels /\
    Forall (fun chn => length chn = frames) cd /\
    interleave cd frames = firstn (channels * frames) (floatData ss) /\
    (Nat.modulo (length ss) channels = 0%nat -> interleave cd frames = floatData ss).
Proof.
  intros Hc Hd frames. unfold pcmToWav_channelData. rewrite Hd.
  assert (Hfl : length (floatData ss) = length ss) by apply length_map.
  rewrite Hfl. fold frames.
  set (fd := floatData ss) in *.
  set (cd := map (fun c => map (fun i => nth (i * channels + c) fd 0%R) (seq 0 frames))
                 (seq 0 channels)).
  assert (Hinter : interleave cd frames = firstn (channels * frames) fd).
  { unfold interleave, cd.
    replace (firstn (channels * frames) fd)
      with (firstn (channels * frames) (skipn (channels * 0) fd))
      by (now rewrite Nat.mul_0_r).
    rewrite <- (frames_flatten fd channels 0 frames)
      by (rewrite Nat.add_0_l, Hfl; apply Nat.Div0.mul_div_le).
    rewrite !flat_map_concat_map. f_equal. apply map_ext_in.
    intros i Hi. apply in_seq in Hi. rewrite map_map. apply map_ext.
    intros c. rewrite (nth_indep _ 0%R ((fun i0 => nth (i0 * channels + c) fd 0%R) 0%nat))
      by (rewrite length_map, length_seq; lia).
    pose proof (map_nth (fun i0 => nth (i0 * channels + c) fd 0%R) (seq 0 frames) 0%nat i)
      as E.
    cbv beta in E. rewrite E, seq_nth by lia. reflexivity. }
  exists cd. split; [reflexivity|]. split; [|split; [|split]].
  - unfold cd. now rewrite length_map, length_seq.
  - unfold cd. apply List.Forall_map, List.Forall_forall. intros c _.
    now rewrite length_map, length_seq.
  - exact Hinter.
  - intros Hm. rewrite Hinter.
    pose proof (Nat.div_mod (length ss) channels ltac:(lia)) as Hdm.
    rewrite Hm, Nat.add_0_r in Hdm. fold frames in Hdm.
    rewrite <- Hdm, <- Hfl. apply firstn_all.
Qed.

Lemma pcmToWav_channel_split_witness :
  (0 < 2)%nat /\ pcmSamples [0; 0; 1; 0; 255; 255] = Some [0; 1; -1] /\
  exists cd, pcmToWav_channelData [0; 0; 1; 0; 255; 255] 2 = Some cd /\
    length cd = 2%nat /\
    Forall (fun chn => length chn = Nat.div (length [0; 1; -1]) 2) cd /\
    interleave cd (Nat.div (length [0; 1; -1]) 2) =
      firstn (2 * Nat.div (length [0; 1; -1]) 2) (floatData [0; 1; -1]) /\
    (Nat.modulo (length [0; 1; -1]) 2 = 0%nat ->
       interleave cd (Nat.div (length [0; 1; -1]) 2) = floatData [0; 1; -1]).
Proof.
  assert (Hd : pcmSamples [0; 0; 1; 0; 255; 255] = Some [0; 1; -1]) by reflexivity.
  split; [lia|]. split; [exact Hd|].
  exact (pcmToWav_channel_split [0; 0; 1; 0; 255; 255] 2 [0; 1; -1] ltac:(lia) Hd).
Defined.

(* ------------------------------------------------------------------ *)
(** ** The fields of a recording stay consistent *)

Lemma set_barge_wf (r : recording) (h l : Z) :
  recording_wf r -> 0 <= h <= 1 -> recording_wf (set_barge r h l).
Proof.
  intros (Hb & Hp & Hi & Ha & _) Hh. unfold set_barge, recording_wf; cbn.
  split; [exact Hb|]. split; [exact Hp|]. split; [exact Hi|]. split; [exact Ha|exact Hh].
Qed.

Lemma clear_preRoll_wf (r : recording) :
  recording_wf r -> recording_wf (clear_preRoll r).
Proof.
  intros (Hb & Hp & Hi & Ha & Hh). unfold clear_preRoll, recording_wf; cbn.
  split; [exact Hb|]. split; [reflexivity|]. split; [exact Hi|]. split; [|exact Hh].
  intros H. split; [reflexivity|apply Ha, H].
Qed.

Lemma bargeGate_wf (cfg : config) (now : Z) (rms : jsnum) (pb : playback)
    (r : recording) (g : gate) (pb' : playback) (r' : recording) :
  recording_wf r -> bargeGate cfg now rms pb r = (g, pb', r') -> recording_wf r'.
Proof.
  intros Hwf Hg. pose proof Hwf as (_ & _ & _ & _ & Hh). unfold bargeGate in Hg.
  destruct (is_playing (status pb)); [|injection Hg as _ _ <-; exact Hwf].
  destruct (BARGE_IN_ENABLED cfg && js_ge rms (BARGE_IN_THRESHOLD cfg));
    [|injection Hg as _ _ <-; now apply clear_preRoll_wf].
  destruct (now - bargeLastAt r <? 250) eqn:E1.
  - destruct (bargeHits r + 1 >=? 2) eqn:E2; injection Hg as _ _ <-.
    + exact (set_barge_wf r 0 now Hwf ltac:(lia)).
    + rewrite Z.geb_leb in E2. apply Z.leb_gt in E2. apply set_barge_wf; [exact Hwf|lia].
  - destruct (1 >=? 2) eqn:E2; [discriminate|]. injection Hg as _ _ <-.
    apply set_barge_wf; [exact Hwf|lia].
Qed.

Lemma segmentFrame_wf (cfg : config) (now : Z) (c : chunk) (e : bool) (r : recording) :
  recording_wf r -> recording_wf (segmentFrame cfg now c e r).
Proof.
  intros (Hb & Hp & Hi & Ha & Hh). unfold segmentFrame.
  destruct (active r) eqn:Hact.
  - unfold appendActive, recording_wf; cbn.
    rewrite Hact, total_bytes_app, <- Hb. cbn.
    split; [lia|]. split; [exact Hp|]. split; [discriminate|].
    split; [exact Ha|exact Hh].
  - destruct (trimPreRoll (maxPreRollBytes cfg) (preRoll r ++ [c]) (preRollBytes r + clen c))
      as [pr prb] eqn:Ht.
    assert (Hb0 : preRollBytes r + clen c = total_bytes (preRoll r ++ [c])).
    { rewrite total_bytes_app, <- Hp. cbn. lia. }
    assert (Hne : preRoll r ++ [c] <> []) by (destruct (preRoll r); discriminate).
    destruct (trimPreRoll_spec _ _ _ _ _ Hb0 Hne Ht) as [Hprb _].
    destruct (Hi eq_refl) as [Hch Hst].
    destruct e; cbn.
    + unfold appendActive, recording_wf; cbn. rewrite total_bytes_app, <- Hprb. cbn.
      split; [lia|]. split; [reflexivity|]. split; [discriminate|].
      split; [intros _; split; [reflexivity|discriminate]|exact Hh].
    + unfold recording_wf; cbn.
      split; [exact Hb|]. split; [exact Hprb|]. split; [intros _; split; assumption|].
      split; [discriminate|exact Hh].
Qed.

(** X4: every recording keeps its byte counters equal to the sizes of the
    buffers they count ([bytes] for [chunks], [preRollBytes] for
    [preRoll]); an Idle recording has no buffered chunks and no start
    time, an Active one has a start time and an empty pre-roll; and
    [bargeHits] stays 0 or 1 between frames.  This holds for the object
    [startRecording] creates and is kept by the data handler and by the
    silence-detector tick. *)
Theorem recording_fields_consistent :
  (forall u, recording_wf (fresh_recording u)) /\
  (forall cfg now c pb r pb' r',
     recording_wf r -> onData cfg now c pb r = Some (pb', r') -> recording_wf r') /\
  (forall cfg now r, recording_wf r -> recording_wf (snd (silenceTick cfg now r))).
Proof.
  split; [|split].
  - intros u. unfold recording_wf; cbn.
    split; [reflexivity|]. split; [reflexivity|]. split; [intros _; split; reflexivity|].
    split; [discriminate|lia].
  - intros cfg now c pb r pb' r' Hwf Hod. unfold onData in Hod.
    destruct (computeRms c) as [rms|]; [|discriminate].
    destruct (bargeGate cfg now rms pb r) as [[g pb1] r1] eqn:Hg.
    pose proof (bargeGate_wf _ _ _ _ _ _ _ _ Hwf Hg) as Hwf1.
    destruct g; injection Hod as _ <-; [exact Hwf1|].
    now apply segmentFrame_wf.
  - intros cfg now r Hwf. pose proof Hwf as (Hb & Hp & Hi & Ha & Hh).
    assert (Hreset : recording_wf (reset_utterance r)).
    { unfold reset_utterance, recording_wf; cbn.
      split; [reflexivity|]. split; [exact Hp|]. split; [intros _; split; reflexivity|].
      split; [discriminate|exact Hh]. }
    unfold silenceTick.
    destruct (negb (active r)); [exact Hwf|].
    destruct (bytesToMs (bytes r) >=? MAX_UTTERANCE_MS cfg); [exact Hreset|].
    destruct ((now - lastAudioAt r >=? SILENCE_MS cfg) && _); [exact Hreset|].
    destruct (now - lastAudioAt r >=? SILENCE_MS cfg * 10); [exact Hreset|exact Hwf].
Qed.

(* ------------------------------------------------------------------ *)
(** ** The rate limiter across users and kinds *)

(** X5: with nonnegative ceilings, a request of any user and kind at any
    time touches only that user's entry; if every entry's counters lie
    between 0 and their ceilings before, they still do after (any
    interleaving of users, kinds and times keeps the bound); and inside a
    running window a refused request leaves the entry as it was, while an
    allowed one adds one to its own kind's counter only. *)
Theorem isRateLimited_local_bounded (cfg : config) (now : Z)
    (rl : gmap string rl_entry) (u : string) (k : kind) :
  0 <= RATE_LIMIT_STT_MAX cfg -> 0 <= RATE_LIMIT_TTS_MAX cfg ->
  let '(limited, rl') := isRateLimited cfg now rl u k in
  (forall v, v <> u -> rl' !! v = rl !! v) /\
  ((forall v e, rl !! v = Some e ->
      0 <= sttCount e <= RATE_LIMIT_STT_MAX cfg /\ 0 <= ttsCount e <= RATE_LIMIT_TTS_MAX cfg) ->
   forall v e, rl' !! v = Some e ->
      0 <= sttCount e <= RATE_LIMIT_STT_MAX cfg /\ 0 <= ttsCount e <= RATE_LIMIT_TTS_MAX cfg) /\
  (forall e, rl !! u = Some e -> now - windowStart e < RATE_LIMIT_WINDOW_MS cfg ->
     if limited then rl' !! u = Some e
     else exists e', rl' !! u = Some e' /\ windowStart e' = windowStart e /\
       count_of k e' = count_of k e + 1 /\
       count_of (match k with stt => tts | tts => stt end) e' =
       count_of (match k with stt => tts | tts => stt end) e).
Proof.
  intros Hs Ht. unfold isRateLimited.
  set (e0 := default {| windowStart := now; sttCount := 0; ttsCount := 0 |} (rl !! u)).
  set (e1 := if now - windowStart e0 >=? RATE_LIMIT_WINDOW_MS cfg
             then {| windowStart := now; sttCount := 0; ttsCount := 0 |} else e0).
  assert (He1 : (forall v e, rl !! v = Some e ->
      0 <= sttCount e <= RATE_LIMIT_STT_MAX cfg /\ 0 <= ttsCount e <= RATE_LIMIT_TTS_MAX cfg) ->
      0 <= sttCount e1 <= RATE_LIMIT_STT_MAX cfg /\ 0 <= ttsCount e1 <= RATE_LIMIT_TTS_MAX cfg).
  { intros Hb. unfold e1. destruct (_ >=? _); [cbn; lia|].
    unfold e0. destruct (rl !! u) as [e|] eqn:Hu; cbn; [exact (Hb u e Hu)|lia]. }
  assert (Hwin : forall e, rl !! u = Some e -> now - windowStart e < RATE_LIMIT_WINDOW_MS cfg ->
                 e1 = e).
  { intros e Hu Hw. unfold e1, e0. rewrite Hu. cbn.
    replace (now - windowStart e >=? RATE_LIMIT_WINDOW_MS cfg) with false by lia.
    reflexivity. }
  assert (Hins : forall (x : rl_entry) (P : rl_entry -> Prop),
            (forall v e, rl !! v = Some e -> P e) -> P x ->
            forall v e, <[u := x]> rl !! v = Some e -> P e).
  { intros x P Hall Hx v e Hv. destruct (decide (v = u)) as [->|Hne].
    - rewrite lookup_insert_eq in Hv. injection Hv as <-. exact Hx.
    - rewrite lookup_insert_ne in Hv by congruence. exact (Hall v e Hv). }
  destruct k.
  - destruct (sttCount e1 >=? RATE_LIMIT_STT_MAX cfg) eqn:Hc.
    + split; [intros v Hv; apply lookup_insert_ne; congruence|]. split.
      * intros Hb. apply (Hins e1 _ Hb (He1 Hb)).
      * intros e Hu Hw. rewrite lookup_insert_eq. now rewrite (Hwin e Hu Hw).
    + split; [intros v Hv; apply lookup_insert_ne; congruence|]. split.
      * intros Hb. apply (Hins _ _ Hb). cbn. pose proof (He1 Hb). lia.
      * intros e Hu Hw. rewrite lookup_insert_eq. eexists. split; [reflexivity|].
        rewrite (Hwin e Hu Hw). cbn. repeat split.
  - destruct (ttsCount e1 >=? RATE_LIMIT_TTS_MAX cfg) eqn:Hc.
    + split; [intros v Hv; apply lookup_insert_ne; congruence|]. split.
      * intros Hb. apply (Hins e1 _ Hb (He1 Hb)).
      * intros e Hu Hw. rewrite lookup_insert_eq. now rewrite (Hwin e Hu Hw).
    + split; [intros v Hv; apply lookup_insert_ne; congruence|]. split.
      * intros Hb. apply (Hins _ _ Hb). cbn. pose proof (He1 Hb). lia.
      * intros e Hu Hw. rewrite lookup_insert_eq. eexists. split; [reflexivity|].
        rewrite (Hwin e Hu Hw). cbn. repeat split.
Qed.

(** A user with three transcriptions and two replies in the window that
    opened at 1000 asks for a fourth transcription at 5000. *)
Lemma isRateLimited_local_bounded_witness :
  let u := "323379312608673803" in
  let e0 := mkEntry 1000 3 2 in
  let rl0 := {[ u := e0 ]} : gmap string rl_entry in
  0 <= RATE_LIMIT_STT_MAX default_config /\ 0 <= RATE_LIMIT_TTS_MAX default_config /\
  rl0 !! u = Some e0 /\ 5000 - windowStart e0 < RATE_LIMIT_WINDOW_MS default_config /\
  fst (isRateLimited default_config 5000 rl0 u stt) = false /\
  exists e', snd (isRateLimited default_config 5000 rl0 u stt) !! u = Some e' /\
    windowStart e' = 1000 /\ count_of stt e' = 4 /\ count_of tts e' = 2.
Proof.
  intros u e0 rl0.
  assert (H1 : 0 <= RATE_LIMIT_STT_MAX default_config) by (cbn; lia).
  assert (H2 : 0 <= RATE_LIMIT_TTS_MAX default_config) by (cbn; lia).
  assert (Hl : rl0 !! u = Some e0) by apply lookup_insert_eq.
  assert (Hw : 5000 - windowStart e0 < RATE_LIMIT_WINDOW_MS default_config) by (cbn; lia).
  pose proof (isRateLimited_local_bounded default_config 5000 rl0 u stt H1 H2) as H.
  assert (Hlim : fst (isRateLimited default_config 5000 rl0 u stt) = false)
    by (vm_compute; reflexivity).
  do 4 (split; [assumption|]). split; [exact Hlim|].
  destruct (isRateLimited default_config 5000 rl0 u stt) as [lim rl'].
  cbn [fst snd] in Hlim |- *. subst lim.
  destruct H as (_ & _ & Hin). destruct (Hin e0 Hl Hw) as (e' & He' & Hws & Hst & Htt).
  exists e'. split; [exact He'|]. split; [exact Hws|]. split; [exact Hst|exact Htt].
Defined.

(* ------------------------------------------------------------------ *)
(** ** Starting and cleaning up recordings *)

Lemma session_eta (st : session) : set_recordings st (recordings st) = st.
Proof. destruct st. reflexivity. Qed.

Lemma startRecording_header (st : session) (u : string) :
  channelId (startRecording st u) = channelId st /\
  standby (startRecording st u) = standby st /\
  manualLeave (startRecording st u) = manualLeave st.
Proof.
  unfold startRecording. destruct (negb (allowlisted u));
    [|destruct (standby st) eqn:Hs; [|destruct (recordings st !! u)]]; cbn;
    repeat split; congruence.
Qed.

Lemma startRecording_lookup (st : session) (u v : string) :
  recordings (startRecording st u) !! v =
  if negb (allowlisted u) || standby st || bool_decide (is_Some (recordings st !! u))
     || negb (bool_decide (v = u))
  then recordings st !! v else Some (fresh_recording u).
Proof.
  unfold startRecording. destruct (allowlisted u); cbn; [|reflexivity].
  destruct (standby st); cbn; [reflexivity|].
  destruct (recordings st !! u) eqn:E; cbn.
  - reflexivity.
  - destruct (decide (v = u)) as [->|Hne].
    + rewrite bool_decide_true by reflexivity. apply lookup_insert_eq.
    + rewrite bool_decide_false by exact Hne. cbn. apply lookup_insert_ne. congruence.
Qed.

(** X6: [cleanupRecording] undoes a [startRecording] of a user that had no
    recording; [startRecording] a second time changes nothing; and both
    leave the recordings of every other user untouched. *)
Theorem start_cleanup_compose :
  (forall st u, recordings st !! u = None ->
     cleanupRecording (startRecording st u) u = st) /\
  (forall st u, startRecording (startRecording st u) u = startRecording st u) /\
  (forall st u v, v <> u ->
     recordings (startRecording st u) !! v = recordings st !! v /\
     recordings (cleanupRecording st u) !! v = recordings st !! v).
Proof.
  split; [|split].
  - intros st u Hu. unfold cleanupRecording, startRecording.
    destruct (allowlisted u) eqn:Ha; cbn;
      [|rewrite delete_id by exact Hu; apply session_eta].
    destruct (standby st) eqn:Hs; cbn;
      [rewrite delete_id by exact Hu; apply session_eta|].
    rewrite Hu. cbn. rewrite delete_insert_id by exact Hu. destruct st; reflexivity.
  - intros st u.
    destruct (allowlisted u) eqn:Ha; [|unfold startRecording; rewrite Ha; reflexivity].
    destruct (standby st) eqn:Hs;
      [unfold startRecording; rewrite Ha, Hs; cbn; rewrite Hs; reflexivity|].
    destruct (recordings st !! u) eqn:E;
      [unfold startRecording; rewrite Ha, Hs, E; cbn; rewrite Hs, E; reflexivity|].
    assert (H1 : startRecording st u =
                 set_recordings st (<[u := fresh_recording u]> (recordings st)))
      by (unfold startRecording; rewrite Ha, Hs, E; reflexivity).
    rewrite H1. unfold startRecording at 1. rewrite Ha. cbn.
    rewrite Hs, lookup_insert_eq. reflexivity.
  - intros st u v Hne. split.
    + rewrite startRecording_lookup. rewrite (bool_decide_false (v = u)) by exact Hne.
      now rewrite !orb_true_r.
    + cbn. apply lookup_delete_ne. congruence.
Qed.

(* ------------------------------------------------------------------ *)
(** ** Standby transitions and priming *)

Lemma startRecording_other (s : session) (u v : string) :
  v <> u -> recordings (startRecording s u) !! v = recordings s !! v.
Proof.
  intros Hne. rewrite startRecording_lookup, (bool_decide_false (v = u)) by exact Hne.
  now rewrite !orb_true_r.
Qed.

Lemma startRecording_keeps (s : session) (u v : string) :
  is_Some (recordings s !! v) -> recordings (startRecording s u) !! v = recordings s !! v.
Proof.
  intros Hv. rewrite startRecording_lookup.
  destruct (decide (v = u)) as [->|Hne].
  - rewrite (bool_decide_true (is_Some _)) by exact Hv. now rewrite !orb_true_r.
  - rewrite (bool_decide_false (v = u)) by exact Hne. now rewrite !orb_true_r.
Qed.

Lemma startRecording_adds (s : session) (u : string) :
  standby s = false -> allowlisted u = true -> is_Some (recordings (startRecording s u) !! u).
Proof.
  intros Hs Ha. destruct (recordings s !! u) eqn:E.
  - rewrite startRecording_keeps by (rewrite E; eexists; reflexivity). rewrite E. eexists; reflexivity.
  - rewrite startRecording_lookup, Ha, Hs, E. cbn.
    rewrite ?(bool_decide_false (is_Some None)) by (intros [x Hx]; discriminate).
    rewrite bool_decide_true by reflexivity. eexists; reflexivity.
Qed.

Lemma startRecording_origin (s : session) (u v : string) (x : recording) :
  recordings (startRecording s u) !! v = Some x ->
  recordings s !! v = Some x \/ (v = u /\ x = fresh_recording u /\ allowlisted u = true).
Proof.
  intros H. rewrite startRecording_lookup in H.
  destruct (allowlisted u) eqn:Ha; cbn in H; [|left; exact H].
  destruct (standby s); cbn in H; [left; exact H|].
  destruct (bool_decide (is_Some (recordings s !! u))); cbn in H; [left; exact H|].
  destruct (bool_decide (v = u)) eqn:Hvu; cbn in H; [|left; exact H].
  injection H as <-. right. apply bool_decide_eq_true in Hvu. auto.
Qed.

Lemma fold_left_header {A : Type} (f : session -> A -> session) :
  (forall s a, channelId (f s a) = channelId s /\ standby (f s a) = standby s /\
               manualLeave (f s a) = manualLeave s) ->
  forall (l : list A) (s : session),
  channelId (fold_left f l s) = channelId s /\ standby (fold_left f l s) = standby s /\
  manualLeave (fold_left f l s) = manualLeave s.
Proof.
  intros Hf l. induction l as [|a l IH]; intros s; [auto|].
  cbn [fold_left]. destruct (IH (f s a)) as (H1 & H2 & H3).
  destruct (Hf s a) as (G1 & G2 & G3). rewrite H1, H2, H3, G1, G2, G3. auto.
Qed.

Lemma fold_left_ext_session {A : Type} (f g : session -> A -> session) :
  (forall s a, f s a = g s a) ->
  forall (l : list A) (s : session), fold_left f l s = fold_left g l s.
Proof.
  intros Hfg l. induction l as [|a l IH]; intros s; [reflexivity|].
  cbn [fold_left]. rewrite Hfg. apply IH.
Qed.

Lemma fold_start_spec (ms : list member) (s : session) :
  standby s = false ->
  let s' := fold_left (fun s m => startRecording s (memberId m)) ms s in
  (forall v, is_Some (recordings s !! v) -> recordings s' !! v = recordings s !! v) /\
  (forall m, In m ms -> allowlisted (memberId m) = true ->
     is_Some (recordings s' !! memberId m)) /\
  (forall v x, recordings s' !! v = Some x ->
     recordings s !! v = Some x \/
     (x = fresh_recording v /\ allowlisted v = true /\ exists m, In m ms /\ memberId m = v)).
Proof.
  revert s. induction ms as [|m ms IH]; intros s Hs s'.
  - split; [reflexivity|]. split; [intros m []|]. intros v x H. left. exact H.
  - cbn [fold_left] in s'.
    set (s1 := startRecording s (memberId m)) in *.
    assert (Hs1 : standby s1 = false).
    { pose proof (startRecording_header s (memberId m)) as (_ & H & _).
      unfold s1. rewrite H. exact Hs. }
    destruct (IH s1 Hs1) as (Hkeep & Hall & Horig). fold s' in Hkeep, Hall, Horig.
    split; [|split].
    + intros v Hv. rewrite Hkeep; [apply startRecording_keeps; exact Hv|].
      unfold s1. rewrite startRecording_keeps by exact Hv. exact Hv.
    + intros m' [<-|Hin] Ha.
      * rewrite Hkeep by (apply startRecording_adds; assumption).
        apply startRecording_adds; assumption.
      * exact (Hall m' Hin Ha).
    + intros v x Hx. destruct (Horig v x Hx) as [H1|(-> & Ha & m' & Hin & Hm')].
      * destruct (startRecording_origin s (memberId m) v x H1) as [H2|(-> & -> & Ha)].
        { left. exact H2. }
        right. split; [reflexivity|]. split; [exact Ha|]. exists m. split; [left|]; reflexivity.
      * right. split; [reflexivity|]. split; [exact Ha|]. exists m'. split; [right|]; assumption.
Qed.

Lemma start_header_all (s : session) (m : member) :
  channelId (startRecording s (memberId m)) = channelId s /\
  standby (startRecording s (memberId m)) = standby s /\
  manualLeave (startRecording s (memberId m)) = manualLeave s.
Proof. apply startRecording_header. Qed.

Lemma cleanup_header_all (s : session) (u : string) :
  channelId (cleanupRecording s u) = channelId s /\
  standby (cleanupRecording s u) = standby s /\
  manualLeave (cleanupRecording s u) = manualLeave s.
Proof. repeat split. Qed.

Lemma refresh_body_start (s : session) (m : member) :
  (if allowlisted (memberId m) then startRecording s (memberId m) else s) =
  startRecording s (memberId m).
Proof.
  destruct (allowlisted (memberId m)) eqn:Ha; [reflexivity|].
  unfold startRecording. now rewrite Ha.
Qed.

Lemma prime_body_start (s : session) (m : member) :
  (if negb (allowlisted (memberId m)) then s
   else if standby s then s else startRecording s (memberId m)) =
  startRecording s (memberId m).
Proof.
  unfold startRecording. destruct (allowlisted (memberId m)); cbn; [|reflexivity].
  now destruct (standby s).
Qed.

Lemma primeSubscriptions_as_fold (st : session) (ms : list member) :
  primeSubscriptions st ms = fold_left (fun s m => startRecording s (memberId m)) ms st.
Proof. apply fold_left_ext_session. intros s m. apply prime_body_start. Qed.

Lemma filter_count_zero (f : member -> bool) (ms : list member) :
  Nat.eqb (length (filter f ms)) 0 = negb (existsb f ms).
Proof.
  induction ms as [|m ms IH]; [reflexivity|].
  rewrite filter_cons. cbn [existsb]. destruct (f m); cbn; [reflexivity|exact IH].
Qed.

Lemma refreshStandby_header (st : session) (ch : channel_view) :
  channelId (refreshStandby st ch) = channelId st /\
  manualLeave (refreshStandby st ch) = manualLeave st /\
  standby (refreshStandby st ch) =
    match ch with
    | Some ms => negb (existsb (fun m => negb (isBot m) && allowlisted (memberId m)) ms)
    | None => true
    end.
Proof.
  assert (Hcount : forall ms : list member,
    Nat.eqb (length (filter (fun m => negb (isBot m) && allowlisted (memberId m)) ms)) 0 =
    negb (existsb (fun m => negb (isBot m) && allowlisted (memberId m)) ms)).
  { intros ms. apply filter_count_zero. }
  unfold refreshStandby.
  set (should := Nat.eqb _ 0).
  assert (Hsh : should = match ch with
    | Some ms => negb (existsb (fun m => negb (isBot m) && allowlisted (memberId m)) ms)
    | None => true end).
  { unfold should. destruct ch; [apply Hcount|reflexivity]. }
  rewrite <- Hsh.
  destruct (Bool.eqb should (standby st)) eqn:Heq.
  - apply Bool.eqb_prop in Heq. auto.
  - destruct should.
    + destruct (fold_left_header cleanupRecording cleanup_header_all
                  (map fst (map_to_list (recordings (set_standby st true)))) (set_standby st true))
        as (H1 & H2 & H3). rewrite H1, H2, H3. auto.
    + destruct ch as [ms|]; [|auto].
      rewrite (fold_left_ext_session _ (fun s m => startRecording s (memberId m)))
        by apply refresh_body_start.
      destruct (fold_left_header _ start_header_all ms (set_standby st false))
        as (H1 & H2 & H3). rewrite H1, H2, H3. auto.
Qed.

(** X7: [refreshStandby] puts the session in standby exactly when the
    channel (as the cache has it) holds no allowlisted member that is not a
    bot, a channel missing from the cache counting as empty; it changes
    neither the channel nor [manualLeave]; and a second call on the same
    channel changes nothing. *)
Theorem refreshStandby_standby_iff (st : session) (ch : channel_view) :
  standby (refreshStandby st ch) =
    match ch with
    | Some ms => negb (existsb (fun m => negb (isBot m) && allowlisted (memberId m)) ms)
    | None => true
    end /\
  channelId (refreshStandby st ch) = channelId st /\
  manualLeave (refreshStandby st ch) = manualLeave st /\
  refreshStandby (refreshStandby st ch) ch = refreshStandby st ch.
Proof.
  destruct (refreshStandby_header st ch) as (H1 & H2 & H3).
  split; [exact H3|]. split; [exact H1|]. split; [exact H2|].
  unfold refreshStandby at 1.
  set (should := Nat.eqb _ 0).
  assert (Hsh : should = standby (refreshStandby st ch)).
  { rewrite H3. unfold should. destruct ch as [ms|]; [|reflexivity].
    apply filter_count_zero. }
  rewrite Hsh, Bool.eqb_reflx. reflexivity.
Qed.

(** X8: when [refreshStandby] takes the session out of standby (an
    allowlisted member that is not a bot is in the channel), it starts a
    recording for every allowlisted member present (bots included, as the
    loop does not test [user.bot]), keeps the recordings it had, and every
    new one is a fresh recording of an allowlisted member present. *)
Theorem refreshStandby_leave_standby (st : session) (ms : list member) :
  standby st = true ->
  existsb (fun m => negb (isBot m) && allowlisted (memberId m)) ms = true ->
  let st' := refreshStandby st (Some ms) in
  standby st' = false /\
  (forall m, In m ms -> allowlisted (memberId m) = true ->
     is_Some (recordings st' !! memberId m)) /\
  (forall v x, recordings st' !! v = Some x ->
     recordings st !! v = Some x \/
     (x = fresh_recording v /\ allowlisted v = true /\ exists m, In m ms /\ memberId m = v)).
Proof.
  intros Hs Hex st'.
  assert (Hst' : st' = fold_left (fun s m => startRecording s (memberId m)) ms
                         (set_standby st false)).
  { unfold st', refreshStandby. rewrite filter_count_zero, Hex, Hs. cbn.
    apply fold_left_ext_session. intros s m. apply refresh_body_start. }
  destruct (fold_start_spec ms (set_standby st false) eq_refl) as (_ & Hall & Horig).
  rewrite <- Hst' in Hall, Horig.
  split; [|split; [exact Hall|exact Horig]].
  destruct (refreshStandby_header st (Some ms)) as (_ & _ & H3). fold st' in H3.
  rewrite H3, Hex. reflexivity.
Qed.

Lemma refreshStandby_leave_standby_witness :
  standby (sample_session false true) = true /\
  existsb (fun m => negb (isBot m) && allowlisted (memberId m))
    [mkMember "323379312608673803" false] = true /\
  let st' := refreshStandby (sample_session false true)
               (Some [mkMember "323379312608673803" false]) in
  standby st' = false /\
  (forall m, In m [mkMember "323379312608673803" false] -> allowlisted (memberId m) = true ->
     is_Some (recordings st' !! memberId m)) /\
  (forall v x, recordings st' !! v = Some x ->
     recordings (sample_session false true) !! v = Some x \/
     (x = fresh_recording v /\ allowlisted v = true /\
      exists m, In m [mkMember "323379312608673803" false] /\ memberId m = v)).
Proof.
  split; [reflexivity|]. split; [reflexivity|].
  exact (refreshStandby_leave_standby (sample_session false true)
           [mkMember "323379312608673803" false] eq_refl eq_refl).
Defined.

(** X9: [primeSubscriptions] does nothing in standby; otherwise it leaves
    the channel, standby and [manualLeave] as they are, keeps every
    existing recording, starts one for each allowlisted member of the
    channel, and creates no other. *)
Theorem primeSubscriptions_spec (st : session) (ms : list member) :
  (standby st = true -> primeSubscriptions st ms = st) /\
  (standby st = false ->
   let st' := primeSubscriptions st ms in
   channelId st' = channelId st /\ standby st' = false /\ manualLeave st' = manualLeave st /\
   (forall v, is_Some (recordings st !! v) -> recordings st' !! v = recordings st !! v) /\
   (forall m, In m ms -> allowlisted (memberId m) = true ->
      is_Some (recordings st' !! memberId m)) /\
   (forall v x, recordings st' !! v = Some x ->
      recordings st !! v = Some x \/
      (x = fresh_recording v /\ allowlisted v = true /\ exists m, In m ms /\ memberId m = v))).
Proof.
  rewrite primeSubscriptions_as_fold. split.
  - intros Hs. revert st Hs. induction ms as [|m ms IH]; intros st Hs; [reflexivity|].
    cbn [fold_left]. rewrite (startRecording_noop st (memberId m)) by (left; exact Hs).
    apply IH, Hs.
  - intros Hs st'. unfold st'.
    destruct (fold_left_header _ start_header_all ms st) as (H1 & H2 & H3).
    destruct (fold_start_spec ms st Hs) as (Hk & Ha & Ho).
    split; [exact H1|]. split; [rewrite H2; exact Hs|]. split; [exact H3|].
    split; [exact Hk|]. split; [exact Ha|exact Ho].
Qed.

(* ------------------------------------------------------------------ *)
(** ** The [voiceStateUpdate] handler and [connectToChannel] *)

(** X10: an update of a user outside the allowlist changes nothing (not
    even standby is refreshed); for an allowlisted user, leaving the
    session's channel removes the user's recording, joining it while the
    refreshed session is not in standby leaves the user with a recording,
    and the recordings of other users are those [refreshStandby] left. *)
Theorem voiceStateUpdate_spec (st : session) (ch : channel_view) (uid : string)
    (oldCh newCh : option string) :
  let st' := voiceStateUpdate st ch uid oldCh newCh in
  (allowlisted uid = false -> st' = st) /\
  (allowlisted uid = true -> oldCh = Some (channelId st) -> newCh <> Some (channelId st) ->
     recordings st' !! uid = None) /\
  (allowlisted uid = true -> newCh = Some (channelId st) -> standby st' = false ->
     is_Some (recordings st' !! uid)) /\
  (allowlisted uid = true -> forall v, v <> uid ->
     recordings st' !! v = recordings (refreshStandby st ch) !! v).
Proof.
  intros st'. unfold st', voiceStateUpdate.
  destruct (allowlisted uid) eqn:Ha; cbn [negb];
    [|split; [reflexivity|]; split; [discriminate|]; split; discriminate].
  pose proof (refreshStandby_header st ch) as (Hc1 & _ & _).
  set (st1 := refreshStandby st ch) in *.
  pose proof (startRecording_header st1 uid) as (G1 & G2 & _).
  split; [discriminate|].
  destruct (negb (standby st1) && bool_decide (newCh = Some (channelId st1))) eqn:Ej;
    [rewrite G1|]; rewrite Hc1 in *;
  destruct (bool_decide (oldCh = Some (channelId st)) &&
            negb (bool_decide (newCh = Some (channelId st)))) eqn:Ek;
  (split; [intros _ Hold Hnew; rewrite Hold, bool_decide_true in Ek by reflexivity;
           rewrite bool_decide_false in Ek by exact Hnew; cbn in Ek;
           try discriminate Ek; cbn; apply lookup_delete_eq|]);
  (split; [intros _ Hnew Hs'; rewrite Hnew, (bool_decide_true (Some _ = Some _)) in Ek
             by reflexivity; rewrite andb_false_r in Ek; try discriminate Ek|]);
  try (intros _ v Hv; cbn; rewrite ?lookup_delete_ne by congruence;
       first [apply startRecording_other; exact Hv | reflexivity]).
  - rewrite G2 in Hs'. apply startRecording_adds; assumption.
  - exfalso. rewrite Hnew, bool_decide_true in Ej by reflexivity.
    rewrite Hs' in Ej. discriminate.
Qed.

Lemma refreshStandby_cases (st : session) (ch : channel_view) :
  standby st = false ->
  (standby (refreshStandby st ch) = false /\ refreshStandby st ch = st) \/
  (standby (refreshStandby st ch) = true /\ recordings (refreshStandby st ch) = ∅).
Proof.
  intros Hs. destruct (refreshStandby_header st ch) as (_ & _ & H3).
  destruct (standby (refreshStandby st ch)) eqn:E.
  - right. split; [reflexivity|].
    apply (refreshStandby_clean st ch); [rewrite Hs; discriminate|exact E].
  - left. split; [reflexivity|]. unfold refreshStandby.
    set (should := Nat.eqb _ 0).
    assert (Hsh : should = false).
    { unfold should. rewrite H3. destruct ch; [apply filter_count_zero|reflexivity]. }
    rewrite Hsh, Hs. reflexivity.
Qed.

(** X11: right after [connectToChannel] the session is on the requested
    channel with [manualLeave] false; it is in standby exactly when the
    cached channel holds no allowlisted member that is not a bot; every
    recording is a fresh one of an allowlisted member of the channel; and
    when not in standby every allowlisted member has one. *)
Theorem connectToChannel_spec (chId : string) (ms : list member) (ch : channel_view) :
  let st := connectToChannel chId ms ch in
  channelId st = chId /\ manualLeave st = false /\
  standby st =
    match ch with
    | Some ms' => negb (existsb (fun m => negb (isBot m) && allowlisted (memberId m)) ms')
    | None => true
    end /\
  (forall v x, recordings st !! v = Some x ->
     x = fresh_recording v /\ allowlisted v = true /\ exists m, In m ms /\ memberId m = v) /\
  (standby st = false -> forall m, In m ms -> allowlisted (memberId m) = true ->
     is_Some (recordings st !! memberId m)).
Proof.
  intros st. unfold st, connectToChannel.
  set (st0 := {| channelId := chId; standby := false; manualLeave := false;
                 recordings := ∅ |}).
  rewrite primeSubscriptions_as_fold.
  set (st1 := fold_left (fun s m => startRecording s (memberId m)) ms st0).
  destruct (fold_left_header _ start_header_all ms st0) as (H1 & H2 & H3). fold st1 in H1, H2, H3.
  destruct (fold_start_spec ms st0 eq_refl) as (_ & Hall & Horig). fold st1 in Hall, Horig.
  destruct (refreshStandby_header st1 ch) as (R1 & R2 & R3).
  split; [rewrite R1, H1; reflexivity|]. split; [rewrite R2, H3; reflexivity|].
  split; [exact R3|].
  destruct (refreshStandby_cases st1 ch H2) as [[Hs Heq]|[Hs Hemp]].
  - rewrite Heq. split.
    + intros v x Hx. destruct (Horig v x Hx) as [Hn|Ho]; [|exact Ho].
      cbn in Hn. rewrite lookup_empty in Hn. discriminate.
    + intros _. exact Hall.
  - rewrite Hemp. split.
    + intros v x Hx. rewrite lookup_empty in Hx. discriminate.
    + rewrite Hs. discriminate.
Qed.

(* ------------------------------------------------------------------ *)
(** ** Who owns a recording *)

Lemma fold_left_preserve {A : Type} (P : session -> Prop) (f : session -> A -> session) :
  (forall s a, P s -> P (f s a)) -> forall (l : list A) (s : session), P s -> P (fold_left f l s).
Proof.
  intros Hf l. induction l as [|a l IH]; intros s Hs; [exact Hs|]. apply IH, Hf, Hs.
Qed.

Lemma owned_start (s : session) (u : string) :
  (forall v x, recordings s !! v = Some x -> allowlisted v = true /\ userId x = v) ->
  forall v x, recordings (startRecording s u) !! v = Some x ->
    allowlisted v = true /\ userId x = v.
Proof.
  intros Hs v x Hx. destruct (startRecording_origin s u v x Hx) as [H|(-> & -> & Ha)].
  - exact (Hs v x H).
  - split; [exact Ha|reflexivity].
Qed.

Lemma owned_cleanup (s : session) (u : string) :
  (forall v x, recordings s !! v = Some x -> allowlisted v = true /\ userId x = v) ->
  forall v x, recordings (cleanupRecording s u) !! v = Some x ->
    allowlisted v = true /\ userId x = v.
Proof.
  intros Hs v x Hx. cbn in Hx. apply lookup_delete_Some in Hx as [_ Hx]. exact (Hs v x Hx).
Qed.

Lemma owned_refresh (s : session) (ch : channel_view) :
  (forall v x, recordings s !! v = Some x -> allowlisted v = true /\ userId x = v) ->
  forall v x, recordings (refreshStandby s ch) !! v = Some x ->
    allowlisted v = true /\ userId x = v.
Proof.
  intros Hs. unfold refreshStandby.
  destruct (Bool.eqb _ (standby s)); [exact Hs|].
  destruct (Nat.eqb _ 0).
  - apply (fold_left_preserve
      (fun s => forall v x, recordings s !! v = Some x -> allowlisted v = true /\ userId x = v)).
    { intros s' a. apply owned_cleanup. }
    exact Hs.
  - destruct ch as [ms|]; [|exact Hs].
    apply (fold_left_preserve
      (fun s => forall v x, recordings s !! v = Some x -> allowlisted v = true /\ userId x = v)).
    { intros s' m H. rewrite refresh_body_start. apply owned_start, H. }
    exact Hs.
Qed.

(** X12: in every reachable session each recording is stored under the id
    of the user it belongs to, and that user is on the allowlist. *)
Theorem recordings_owned (st : session) :
  reachable st ->
  forall v x, recordings st !! v = Some x -> allowlisted v = true /\ userId x = v.
Proof.
  intros Hr. induction Hr as [chId ms ch|st st' Hr IH Hstep].
  - unfold connectToChannel. apply owned_refresh. rewrite primeSubscriptions_as_fold.
    apply (fold_left_preserve
      (fun s => forall v x, recordings s !! v = Some x -> allowlisted v = true /\ userId x = v)).
    { intros s m H. apply owned_start, H. }
    intros v x Hx. cbn in Hx. rewrite lookup_empty in Hx. discriminate.
  - destruct Hstep.
    + now apply owned_start.
    + now apply owned_cleanup.
    + now apply owned_refresh.
    + rewrite primeSubscriptions_as_fold.
      apply (fold_left_preserve
        (fun s => forall v x, recordings s !! v = Some x -> allowlisted v = true /\ userId x = v)).
      { intros s m H. apply owned_start, H. }
      exact IH.
    + unfold voiceStateUpdate. destruct (negb (allowlisted uid)); [exact IH|].
      pose proof (owned_refresh st ch IH) as H1.
      set (st1 := refreshStandby st ch) in *.
      assert (H2 : forall st2, (st2 = st1 \/ st2 = startRecording st1 uid) ->
        forall v x, recordings st2 !! v = Some x -> allowlisted v = true /\ userId x = v).
      { intros st2 [->| ->]; [exact H1|apply owned_start, H1]. }
      destruct (negb (standby st1) && _);
        [pose proof (H2 _ (or_intror eq_refl)) as H3|pose proof (H2 _ (or_introl eq_refl)) as H3];
        (destruct (_ && _); [apply owned_cleanup, H3|exact H3]).
    + unfold rearm. destruct (negb _); [exact IH|]. destruct (manualLeave st); [exact IH|].
      destruct (recordings st !! u); [exact IH|]. apply owned_start, IH.
    + cbn [endAndFinalize fst snd]. apply owned_cleanup, IH.
Qed.


Lemma recordings_owned_witness :
  reachable (connectToChannel "voice" [mkMember "323379312608673803" false]
               (Some [mkMember "323379312608673803" false])) /\
  forall v x,
    recordings (connectToChannel "voice" [mkMember "323379312608673803" false]
                  (Some [mkMember "323379312608673803" false])) !! v = Some x ->
    allowlisted v = true /\ userId x = v.
Proof.
  split; [apply reach_connect|].
  apply (recordings_owned _ (reach_connect "voice" [mkMember "323379312608673803" false]
                                (Some [mkMember "323379312608673803" false]))).
Defined.

(* ------------------------------------------------------------------ *)
(** ** What [finalizeRecording] sends *)

Lemma isRateLimited_other (cfg : config) (now : Z) (rl : gmap string rl_entry)
    (u : string) (k : kind) (v : string) :
  v <> u -> snd (isRateLimited cfg now rl u k) !! v = rl !! v.
Proof.
  intros Hv. unfold isRateLimited.
  destruct k; destruct (_ >=? _); cbn; apply lookup_insert_ne; congruence.
Qed.

(** X13: [finalizeRecording] sends nothing when the user's transcription
    quota is spent; otherwise its first request is the upload of the
    recording's concatenated chunks; a reply is spoken only when both the
    transcript and the agent's reply are non-empty, with the reply as text
    and [userId || 'unknown'] as rate-limit key; and only the entries of
    those two keys of the rate-limit table change. *)
Theorem finalizeRecording_requests (cfg : config) (svc : services) (t1 t2 : Z)
    (rl : gmap string rl_entry) (r : recording) :
  let wav := toWav svc (concat (chunks r)) in
  (fst (isRateLimited cfg t1 rl (userId r) stt) = true ->
     fst (finalizeRecording cfg svc t1 t2 rl r) = []) /\
  (forall q qs, fst (finalizeRecording cfg svc t1 t2 rl r) = q :: qs ->
     q = stt_request wav) /\
  (forall key txt, In (tts_request key txt) (fst (finalizeRecording cfg svc t1 t2 rl r)) ->
     key = speakerKey (userId r) /\ transcribe svc wav <> "" /\
     txt = askOpenClaw svc (transcribe svc wav) /\ txt <> "") /\
  (forall v, v <> userId r -> v <> speakerKey (userId r) ->
     snd (finalizeRecording cfg svc t1 t2 rl r) !! v = rl !! v).
Proof.
  intros wav. unfold finalizeRecording.
  pose proof (isRateLimited_other cfg t1 rl (userId r) stt) as Ho1.
  destruct (isRateLimited cfg t1 rl (userId r) stt) as [lim rl1]. cbn [fst snd] in *.
  destruct lim.
  { split; [reflexivity|]. split; [discriminate|].
    split; [intros key txt []|]. intros v Hv _. exact (Ho1 v Hv). }
  fold wav. split; [discriminate|].
  destruct (String.eqb (transcribe svc wav) "") eqn:Et.
  { cbn. split; [intros q qs [= <- _]; reflexivity|].
    split; [intros key txt [H|[]]; discriminate|]. intros v Hv _. exact (Ho1 v Hv). }
  destruct (String.eqb (askOpenClaw svc (transcribe svc wav)) "") eqn:Er.
  { cbn. split; [intros q qs [= <- _]; reflexivity|].
    split; [intros key txt [H|[H|[]]]; discriminate|]. intros v Hv _. exact (Ho1 v Hv). }
  unfold speak.
  pose proof (isRateLimited_other cfg t2 rl1 (speakerKey (userId r)) tts) as Ho2.
  destruct (isRateLimited cfg t2 rl1 (speakerKey (userId r)) tts) as [lim2 rl2].
  cbn [fst snd] in *.
  apply String.eqb_neq in Et, Er.
  split; [intros q qs H; destruct lim2; injection H as <- _; reflexivity|].
  split.
  - intros key txt H. destruct lim2; cbn in H.
    + destruct H as [H|[H|[]]]; discriminate.
    + destruct H as [H|[H|[H|[]]]]; try discriminate. injection H as <- <-. auto.
  - intros v Hv Hk. destruct lim2; cbn; rewrite (Ho2 v Hk); exact (Ho1 v Hv).
Qed.

(* ------------------------------------------------------------------ *)
(** ** A run of silence ticks *)

(** X14: a run of silence ticks with no frame in between makes at most one
    finalize call, and it hands over the chunks the recording had before
    the run: a tick that finalizes or drops the buffer leaves the
    recording Idle, and later ticks do nothing. *)
Theorem silenceTicks_at_most_one (cfg : config) (ts : list Z) (r : recording) :
  fst (silenceTicks cfg ts r) = [] \/
  exists why, fst (silenceTicks cfg ts r) = [(why, chunks r)].
Proof.
  revert r. induction ts as [|t ts IH]; intros r; [left; reflexivity|].
  rewrite silenceTicks_cons.
  assert (Hreset : fst (silenceTicks cfg ts (reset_utterance r)) = []).
  { apply silenceTicks_idle. reflexivity. }
  unfold silenceTick. destruct (negb (active r)) eqn:Ha; cbn [fst snd].
  - apply negb_true_iff in Ha. rewrite (silenceTicks_idle cfg ts r Ha). left; reflexivity.
  - destruct (bytesToMs (bytes r) >=? MAX_UTTERANCE_MS cfg); cbn [fst snd].
    { right. exists max_utterance. now rewrite Hreset. }
    destruct (_ && _); cbn [fst snd].
    { right. exists silence_timer. now rewrite Hreset. }
    destruct (_ >=? _); cbn [fst snd]; [left; exact Hreset|apply IH].
Qed.

(* ------------------------------------------------------------------ *)
(** ** The chat commands *)

Lemma substring0_length (n : nat) (s : string) :
  (String.length (substring 0 n s) <= n)%nat.
Proof.
  revert n. induction s as [|a s IH]; intros n; destruct n; cbn; try lia.
  specialize (IH n). lia.
Qed.

Lemma rearm_after_leave (st : session) (u : string) (ch : channel_view) :
  manualLeave st = true -> rearm u ch st = st.
Proof.
  intros Hm. unfold rearm. destruct (negb _); [reflexivity|]. now rewrite Hm.
Qed.

Lemma speak_reqs (cfg : config) (now : Z) (rl : gmap string rl_entry) (text u : string) :
  forall q, In q (fst (speak cfg now rl text u)) -> q = tts_request (speakerKey u) text.
Proof.
  intros q Hq. unfold speak in Hq.
  destruct (isRateLimited cfg now rl (speakerKey u) tts) as [[] rl1]; cbn in Hq;
    [contradiction|destruct Hq as [<-|[]]; reflexivity].
Qed.

Lemma allowlisted_nonempty (u : string) : allowlisted u = true -> speakerKey u = u.
Proof.
  intros H. unfold speakerKey. destruct (String.eqb u "") eqn:E; [|reflexivity].
  apply String.eqb_eq in E. subst u. discriminate.
Qed.

(** X15: a message from a bot, from outside a guild or from a user not on
    the allowlist is ignored entirely, and no message changes the
    connection of any guild but its own. *)
Theorem messageCreate_guards_local (js_trim : string -> string) (AUTO_SPEAK_ON_JOIN : bool)
    (cfg : config) (now : Z) (rl : gmap string rl_entry) (cs : gmap string session)
    (m : message) :
  ((authorBot m = true \/ guild m = None \/ allowlisted (authorId m) = false) ->
     messageCreate js_trim AUTO_SPEAK_ON_JOIN cfg now rl cs m = mkOut cs None [] [] rl) /\
  (forall g', guild m <> Some g' ->
     conns (messageCreate js_trim AUTO_SPEAK_ON_JOIN cfg now rl cs m) !! g' = cs !! g').
Proof.
  split.
  - intros H. unfold messageCreate.
    destruct (authorBot m) eqn:Eb; [reflexivity|].
    destruct (guild m) as [g|] eqn:Eg; [|reflexivity].
    destruct (allowlisted (authorId m)) eqn:Ea; [|reflexivity].
    destruct H as [H|[H|H]]; discriminate.
  - intros g' Hg. unfold messageCreate.
    destruct (authorBot m); [reflexivity|].
    destruct (guild m) as [g|]; [|reflexivity].
    assert (Hne : g' <> g) by congruence.
    destruct (negb _); [reflexivity|].
    destruct (String.eqb _ "!join").
    { destruct (voiceOf m); [|reflexivity].
      destruct AUTO_SPEAK_ON_JOIN; [destruct (speak _ _ _ _ _)|]; cbn [conns];
        rewrite lookup_insert_ne by congruence;
        (destruct (cs !! g); [apply lookup_delete_ne; congruence|reflexivity]). }
    destruct (String.eqb _ "!leave").
    { destruct (cs !! g); [cbn; apply lookup_delete_ne; congruence|reflexivity]. }
    destruct (String.prefix _ _); [|reflexivity].
    destruct (cs !! g); [|reflexivity].
    destruct (String.eqb _ ""); [reflexivity|].
    destruct (speak _ _ _ _ _); reflexivity.
Qed.

(** X16: when a command replaces or removes a guild's session ([!join]
    over an existing one, [!leave]), the old session object is the
    guild's previous one with [manualLeave] set, so a re-arm timer still
    pending on it starts nothing and a later [Disconnected] event on its
    connection does not rejoin. *)
Theorem messageCreate_retired_inert (js_trim : string -> string) (AUTO_SPEAK_ON_JOIN : bool)
    (cfg : config) (now : Z) (rl : gmap string rl_entry) (cs : gmap string session)
    (m : message) :
  forall st', retired (messageCreate js_trim AUTO_SPEAK_ON_JOIN cfg now rl cs m) = Some st' ->
  (exists g st, guild m = Some g /\ cs !! g = Some st /\ st' = set_manualLeave st true) /\
  onDisconnected st' = false /\ (forall u ch, rearm u ch st' = st').
Proof.
  intros st' Hr.
  assert (Hex : exists g st, guild m = Some g /\ cs !! g = Some st /\ st' = set_manualLeave st true).
  { revert Hr. unfold messageCreate.
    destruct (authorBot m); [discriminate|].
    destruct (guild m) as [g|]; [|discriminate].
    destruct (negb _); [discriminate|].
    destruct (String.eqb _ "!join").
    { destruct (voiceOf m); [|discriminate].
      destruct AUTO_SPEAK_ON_JOIN; [destruct (speak _ _ _ _ _)|]; cbn [retired];
        (destruct (cs !! g) as [st|] eqn:E; [|discriminate]);
        intros [= <-]; eauto. }
    destruct (String.eqb _ "!leave").
    { destruct (cs !! g) as [st|] eqn:E; [|discriminate]. intros [= <-]. eauto. }
    destruct (String.prefix _ _); [|discriminate].
    destruct (cs !! g); [|discriminate].
    destruct (String.eqb _ ""); [discriminate|].
    destruct (speak _ _ _ _ _); discriminate. }
  split; [exact Hex|]. destruct Hex as (g & st & _ & _ & ->).
  split; [reflexivity|]. intros u ch. now apply rearm_after_leave.
Qed.

Lemma messageCreate_retired_inert_witness :
  let cs := {[ "g" := sample_session false false ]} : gmap string session in
  let m := mkMessage false "323379312608673803" (Some "g") "!leave" None in
  let st' := set_manualLeave (sample_session false false) true in
  retired (messageCreate (fun s => s) false default_config 0 ∅ cs m) = Some st' /\
  ((exists g st, guild m = Some g /\ cs !! g = Some st /\ st' = set_manualLeave st true) /\
   onDisconnected st' = false /\ (forall u ch, rearm u ch st' = st')).
Proof.
  intros cs m st'. split; [reflexivity|].
  apply (messageCreate_retired_inert (fun s => s) false default_config 0 ∅ cs m st').
  reflexivity.
Defined.

Lemma speak_system_reqs (cfg : config) (now : Z) (rl : gmap string rl_entry) :
  (forall q, In q (fst (speak cfg now rl AUTO_SPEAK_TEXT "system")) ->
     q = tts_request "system" AUTO_SPEAK_TEXT) /\
  (forall k, k <> "system" -> snd (speak cfg now rl AUTO_SPEAK_TEXT "system") !! k = rl !! k).
Proof.
  split; [apply speak_reqs|].
  intros k Hk. pose proof (isRateLimited_other cfg now rl "system" tts k Hk) as H.
  unfold speak. cbn [speakerKey String.eqb].
  destruct (isRateLimited cfg now rl "system" tts) as [[] rl1]; exact H.
Qed.

(** X17: [!join] from an allowlisted user who is in a voice channel makes
    the guild's connection a fresh session of that channel (not left on
    purpose, primed and with standby set from its members), replies with
    the channel's name, and retires the guild's previous session, if any,
    with [manualLeave] set; its only request is [connectToChannel]'s test
    phrase, spoken under the key ['system'] when [AUTO_SPEAK_ON_JOIN] is
    set, and only that key's rate-limit entry can change. *)
Theorem join_command (js_trim : string -> string) (AUTO_SPEAK_ON_JOIN : bool)
    (cfg : config) (now : Z) (rl : gmap string rl_entry) (cs : gmap string session)
    (m : message) (g : string) (v : voice_channel) :
  authorBot m = false -> guild m = Some g -> allowlisted (authorId m) = true ->
  js_trim (content m) = "!join" -> voiceOf m = Some v ->
  let o := messageCreate js_trim AUTO_SPEAK_ON_JOIN cfg now rl cs m in
  conns o !! g = Some (connectToChannel (vcId v) (vcMembers v) (vcView v)) /\
  manualLeave (connectToChannel (vcId v) (vcMembers v) (vcView v)) = false /\
  channelId (connectToChannel (vcId v) (vcMembers v) (vcView v)) = vcId v /\
  retired o = option_map (fun st => set_manualLeave st true) (cs !! g) /\
  replies o = [("Joined " ++ vcName v ++ ".")%string] /\
  (forall q, In q (reqs o) ->
     AUTO_SPEAK_ON_JOIN = true /\ q = tts_request "system" AUTO_SPEAK_TEXT) /\
  (forall k, k <> "system" -> rl_after o !! k = rl !! k) /\
  (AUTO_SPEAK_ON_JOIN = false -> reqs o = [] /\ rl_after o = rl).
Proof.
  intros Hb Hg Ha Hc Hv o.
  assert (Hcon : manualLeave (connectToChannel (vcId v) (vcMembers v) (vcView v)) = false /\
                 channelId (connectToChannel (vcId v) (vcMembers v) (vcView v)) = vcId v).
  { unfold connectToChannel.
    destruct (refreshStandby_header
      (primeSubscriptions {| channelId := vcId v; standby := false; manualLeave := false;
                             recordings := ∅ |} (vcMembers v)) (vcView v)) as (H1 & H2 & _).
    rewrite H1, H2, primeSubscriptions_as_fold.
    destruct (fold_left_header _ start_header_all (vcMembers v)
      {| channelId := vcId v; standby := false; manualLeave := false;
         recordings := ∅ |}) as (G1 & _ & G3).
    rewrite G1, G3. split; reflexivity. }
  destruct Hcon as [Hm Hid].
  unfold o, messageCreate. rewrite Hb, Hg, Ha, Hc, String.eqb_refl. cbn [negb]. rewrite Hv.
  destruct AUTO_SPEAK_ON_JOIN.
  - destruct (speak_system_reqs cfg now rl) as [Hq Hk].
    destruct (speak cfg now rl AUTO_SPEAK_TEXT "system") as [rs rl1].
    cbn [conns retired replies reqs rl_after fst snd] in *.
    split; [apply lookup_insert_eq|]. split; [exact Hm|]. split; [exact Hid|].
    split; [reflexivity|]. split; [reflexivity|].
    split; [intros q Hin; split; [reflexivity|exact (Hq q Hin)]|].
    split; [exact Hk|discriminate].
  - cbn [conns retired replies reqs rl_after].
    split; [apply lookup_insert_eq|]. split; [exact Hm|]. split; [exact Hid|].
    split; [reflexivity|]. split; [reflexivity|].
    split; [intros q []|]. split; [reflexivity|]. split; reflexivity.
Qed.

Lemma join_command_witness :
  let v := mkVoice "voice" "Lounge" [mkMember "323379312608673803" false]
             (Some [mkMember "323379312608673803" false]) in
  let m := mkMessage false "323379312608673803" (Some "g") "!join" (Some v) in
  let cs := {[ "g" := sample_session false false ]} : gmap string session in
  authorBot m = false /\ guild m = Some "g" /\ allowlisted (authorId m) = true /\
  content m = "!join" /\ voiceOf m = Some v /\
  (let o := messageCreate (fun s => s) true default_config 0 ∅ cs m in
   conns o !! "g" = Some (connectToChannel (vcId v) (vcMembers v) (vcView v)) /\
   manualLeave (connectToChannel (vcId v) (vcMembers v) (vcView v)) = false /\
   channelId (connectToChannel (vcId v) (vcMembers v) (vcView v)) = vcId v /\
   retired o = option_map (fun st => set_manualLeave st true) (cs !! "g") /\
   replies o = [("Joined " ++ vcName v ++ ".")%string] /\
   (forall q, In q (reqs o) -> true = true /\ q = tts_request "system" AUTO_SPEAK_TEXT) /\
   (forall k, k <> "system" -> rl_after o !! k = (∅ : gmap string rl_entry) !! k) /\
   (true = false -> reqs o = [] /\ rl_after o = ∅)).
Proof.
  intros v m cs. do 5 (split; [reflexivity|]).
  apply (join_command (fun s => s) true default_config 0 ∅ cs m "g" v); reflexivity.
Defined.

(** X18: the requests a chat message leads to come only from an
    allowlisted non-bot author in a guild, and are of two kinds: for
    [!say] in a connected guild, TTS requests under the author's id with a
    non-empty text of at most 200 code units; for [!join] with
    [AUTO_SPEAK_ON_JOIN] set, the test phrase under the key ['system'].
    No message changes the rate-limit entry of any other key, and [!say]
    leaves the connections as they are. *)
Theorem message_requests (js_trim : string -> string) (AUTO_SPEAK_ON_JOIN : bool)
    (cfg : config) (now : Z) (rl : gmap string rl_entry) (cs : gmap string session)
    (m : message) :
  (forall q, In q (reqs (messageCreate js_trim AUTO_SPEAK_ON_JOIN cfg now rl cs m)) ->
     authorBot m = false /\ allowlisted (authorId m) = true /\
     exists g, guild m = Some g /\
     ((String.prefix "!say " (js_trim (content m)) = true /\ (exists st, cs !! g = Some st) /\
       exists text, q = tts_request (authorId m) text /\ text <> "" /\
         (String.length text <= 200)%nat) \/
      (js_trim (content m) = "!join" /\ AUTO_SPEAK_ON_JOIN = true /\
       q = tts_request "system" AUTO_SPEAK_TEXT))) /\
  (forall v, v <> authorId m -> v <> "system" ->
     rl_after (messageCreate js_trim AUTO_SPEAK_ON_JOIN cfg now rl cs m) !! v = rl !! v) /\
  (String.prefix "!say " (js_trim (content m)) = true ->
     conns (messageCreate js_trim AUTO_SPEAK_ON_JOIN cfg now rl cs m) = cs).
Proof.
  unfold messageCreate.
  destruct (authorBot m) eqn:Eb; [split; [intros q []|split; reflexivity]|].
  destruct (guild m) as [g|] eqn:Eg; [|split; [intros q []|split; reflexivity]].
  destruct (allowlisted (authorId m)) eqn:Ea; cbn [negb];
    [|split; [intros q []|split; reflexivity]].
  destruct (String.eqb (js_trim (content m)) "!join") eqn:Ej.
  { apply String.eqb_eq in Ej. rewrite Ej.
    destruct (voiceOf m); [|split; [intros q []|split; [reflexivity|discriminate]]].
    destruct AUTO_SPEAK_ON_JOIN.
    - destruct (speak_system_reqs cfg now rl) as [Hq Hk].
      destruct (speak cfg now rl AUTO_SPEAK_TEXT "system") as [rs rl1].
      cbn [conns reqs rl_after fst snd] in *.
      split; [|split; [intros v' _ Hv'; exact (Hk v' Hv')|discriminate]].
      intros q Hin. split; [reflexivity|]. split; [reflexivity|].
      exists g. split; [reflexivity|]. right. split; [reflexivity|].
      split; [reflexivity|exact (Hq q Hin)].
    - split; [intros q []|split; [reflexivity|discriminate]]. }
  destruct (String.eqb (js_trim (content m)) "!leave") eqn:El.
  { apply String.eqb_eq in El. rewrite El.
    destruct (cs !! g); (split; [intros q []|split; [reflexivity|discriminate]]). }
  destruct (String.prefix "!say " (js_trim (content m))) eqn:Ep;
    [|split; [intros q []|split; [reflexivity|discriminate]]].
  destruct (cs !! g) as [st|] eqn:Es; [|split; [intros q []|split; reflexivity]].
  set (text := substring 0 200 _).
  destruct (String.eqb text "") eqn:Et; [split; [intros q []|split; reflexivity]|].
  pose proof (speak_reqs cfg now rl text (authorId m)) as Hsp.
  pose proof (isRateLimited_other cfg now rl (speakerKey (authorId m)) tts) as Hot.
  unfold speak in *. rewrite (allowlisted_nonempty _ Ea) in *.
  destruct (isRateLimited cfg now rl (authorId m) tts) as [lim rl1]. cbn [fst snd] in *.
  destruct lim; cbn [rl_after conns reqs fst] in Hsp |- *;
    (split; [|split; [intros v' Hv' _; exact (Hot v' Hv')|reflexivity]]);
    intros q Hq; specialize (Hsp q Hq);
    (split; [reflexivity|]); (split; [reflexivity|]);
    exists g; (split; [reflexivity|]); left; (split; [reflexivity|]).
  all: split; [eauto|]; exists text; split; [exact Hsp|].
  all: split; [apply String.eqb_neq, Et|apply substring0_length].
Qed.
